(** * Venue conflict detection and slot suggestion (lib/venueConflict.ts)

    A shallow embedding of [checkVenueConflict] and
    [generateSuggestedSlots], and the properties of the two that the
    design document of the event hub states.

    Conventions of the embedding.
    - A JavaScript [Date] is represented by its time value, the number of
      milliseconds since the epoch, as a [Z].  Only valid dates are
      represented; [getTime] is the identity, and so is the round trip
      [new Date(d.toISOString())], both encodings having millisecond
      precision.  The sums and differences of time values are exact, and
      are taken to stay within the range of [Date]
      (8.64e15 milliseconds either side of the epoch): outside it
      [toISOString] throws, which is not represented.
    - A date-time string without offset, such as [`${eventDate}T09:00:00`],
      is represented by its wall-clock reading in milliseconds; the host
      time zone that [new Date] applies to it is a parameter,
      [utcOfLocal].
    - The Supabase client is an external collaborator: the awaited query
      is a parameter, [supabase], from the query that the builder chain
      describes to the promise of its [{ data, error }] response.
    - An [async] function returns a [Promise]; [await] is the bind of
      that type.

    Around the two functions, the development also covers the page that
    creates an event and calls them (pages/AddEvent.tsx), the listing of
    events (pages/Index.tsx), the guards of the navigation bar, of the
    event card and of the page that edits an event, the two edge
    functions that send e-mail (supabase/functions) and the reminders of
    lib/emailService.ts.  There, a string is the sequence of its code
    units, and the text of a date, where only [new Date] reads it, is
    represented by the instant read. *)

From Stdlib Require Import String ZArith List Bool Sorted Lia.
From Stdlib Require Import Permutation.
Import ListNotations.
Open Scope Z_scope.

(** ** Promises *)

Inductive Promise (A : Type) : Type :=
| Resolved (value : A)
| Rejected (reason : string).

Arguments Resolved {A} value.
Arguments Rejected {A} reason.

Definition await {A B : Type} (p : Promise A) (k : A -> Promise B) : Promise B :=
  match p with
  | Resolved value => k value
  | Rejected reason => Rejected reason
  end.

Notation "x <- p ;; k" := (await p (fun x => k))
  (at level 61, p at next level, right associativity).

(** ** Dates *)

Definition Date : Type := Z.

Definition msPerSecond : Z := 1000.
Definition msPerMinute : Z := 60000.
Definition msPerHour : Z := 3600000.
Definition msPerDay : Z := 86400000.

(** [d.toISOString().split('T')[0]]: the UTC calendar day of [d], as the
    number of days since the epoch. *)
Definition isoDate (d : Date) : Z := d / msPerDay.

(** The wall-clock reading of [`${eventDate}Thh:mm:ss`]. *)
Definition dateTime (eventDate hh mm ss : Z) : Z :=
  eventDate * msPerDay + hh * msPerHour + mm * msPerMinute + ss * msPerSecond.

(** ** Data model *)

Record ClubName : Type := { club_name : string }.

Record ConflictEvent : Type := {
  id : string;
  event_name : string;
  start_time : Date;
  end_time : Date;
  venue_id : string;
  clubs : ClubName
}.

Record TimeSlot : Type := {
  slot_start_time : Date;
  slot_end_time : Date;
  available : bool
}.

Record ConflictCheck : Type := {
  hasConflict : bool;
  conflictingEvents : list ConflictEvent;
  suggestedSlots : list TimeSlot
}.

(** The [{ start, end }] objects that [generateSuggestedSlots] sorts. *)
Record Span : Type := { start : Date; end_ : Date }.

(** ** The query *)

(** [from('events').select(...).eq('venue_id', v).gte('start_time', lo)
    .lt('start_time', hi)], and [.neq('id', x)] when present. *)
Record Query : Type := {
  eq_venue_id : string;
  gte_start_time : Z;
  lt_start_time : Z;
  neq_id : option string
}.

Record PostgrestError : Type := { message : string }.

Record QueryResponse : Type := {
  data : option (list ConflictEvent);
  error : option PostgrestError
}.

(** Truthiness of an optional string argument: [undefined] and the empty
    string are falsy. *)
Definition truthy (s : option string) : option string :=
  match s with
  | Some EmptyString => None
  | Some x => Some x
  | None => None
  end.

(** ** Array operations *)

Definition push {A : Type} (arr : list A) (x : A) : list A := arr ++ [x].

Definition slice0 {A : Type} (n : nat) (arr : list A) : list A := firstn n arr.

(** [Array.prototype.sort] with the comparator
    [(a, b) => a.start.getTime() - b.start.getTime()].  The sort is
    stable; a stable sort has one result, computed here by insertion. *)
Fixpoint insertByStart (x : Span) (l : list Span) : list Span :=
  match l with
  | [] => [x]
  | y :: l' => if start x <=? start y then x :: l else y :: insertByStart x l'
  end.

Definition sortByStart (l : list Span) : list Span :=
  fold_right insertByStart [] l.

Section Engine.

(** The host time zone: the instant denoted by a wall-clock reading. *)
Variable utcOfLocal : Z -> Date.

(** The awaited Supabase query. *)
Variable supabase : Query -> Promise QueryResponse.

(** ** generateSuggestedSlots *)

Definition slot (slotStart slotEnd : Date) : TimeSlot :=
  {| slot_start_time := slotStart; slot_end_time := slotEnd; available := true |}.

(** Check slot before first event. *)
Definition beforeFirstEvent (dayStart eventDuration : Z)
    (sortedEvents : list Span) (suggestions : list TimeSlot) : list TimeSlot :=
  match sortedEvents with
  | firstEvent :: _ =>
      let availableEnd := start firstEvent in
      if dayStart + eventDuration <=? availableEnd
      then push suggestions (slot dayStart (dayStart + eventDuration))
      else suggestions
  | [] => suggestions
  end.

(** Body of the loop over [i], for [0 <= i < sortedEvents.length - 1]. *)
Definition betweenEventsBody (eventDuration : Z) (sortedEvents : list Span)
    (suggestions : list TimeSlot) (i : nat) : list TimeSlot :=
  match nth_error sortedEvents i, nth_error sortedEvents (i + 1) with
  | Some current, Some next =>
      let currentEventEnd := end_ current in
      let nextEventStart := start next in
      let availableDuration := nextEventStart - currentEventEnd in
      if availableDuration >=? eventDuration
      then push suggestions (slot currentEventEnd (currentEventEnd + eventDuration))
      else suggestions
  | _, _ => suggestions
  end.

(** Check slots between events. *)
Definition betweenEvents (eventDuration : Z) (sortedEvents : list Span)
    (suggestions : list TimeSlot) : list TimeSlot :=
  fold_left (betweenEventsBody eventDuration sortedEvents)
            (seq 0 (length sortedEvents - 1)) suggestions.

(** Check slot after last event. *)
Definition afterLastEvent (dayEnd eventDuration : Z)
    (sortedEvents : list Span) (suggestions : list TimeSlot) : list TimeSlot :=
  if (0 <? length sortedEvents)%nat then
    match nth_error sortedEvents (length sortedEvents - 1) with
    | Some lastEvent =>
        let availableStart := end_ lastEvent in
        if availableStart + eventDuration <=? dayEnd
        then push suggestions (slot availableStart (availableStart + eventDuration))
        else suggestions
    | None => suggestions
    end
  else suggestions.

(** If no existing events, suggest the opening slot when the requested
    time is within working hours. *)
Definition noExistingEvents (dayStart dayEnd eventDuration : Z)
    (requestedStart requestedEnd : Date)
    (sortedEvents : list Span) (suggestions : list TimeSlot) : list TimeSlot :=
  if (length sortedEvents =? 0)%nat then
    if (requestedStart >=? dayStart) && (requestedEnd <=? dayEnd)
    then push suggestions (slot dayStart (dayStart + eventDuration))
    else suggestions
  else suggestions.

Definition withinWorkingHours (dayStart dayEnd : Date) (s : TimeSlot) : bool :=
  (slot_start_time s >=? dayStart) && (slot_end_time s <=? dayEnd).

(** Working hours, 9 AM to 9 PM, of the day [eventDate]. *)
Definition dayStartOf (eventDate : Z) : Date := utcOfLocal (dateTime eventDate 9 0 0).
Definition dayEndOf (eventDate : Z) : Date := utcOfLocal (dateTime eventDate 21 0 0).

Definition toSpan (event : ConflictEvent) : Span :=
  {| start := start_time event; end_ := end_time event |}.

Definition generateSuggestedSlots (venueId : string) (eventDate : Z)
    (requestedStart requestedEnd : Date)
    (existingEvents : list ConflictEvent) : Promise (list TimeSlot) :=
  let suggestions : list TimeSlot := [] in
  let eventDuration := requestedEnd - requestedStart in
  let dayStart := dayStartOf eventDate in
  let dayEnd := dayEndOf eventDate in
  let sortedEvents := sortByStart (map toSpan existingEvents) in
  let suggestions := beforeFirstEvent dayStart eventDuration sortedEvents suggestions in
  let suggestions := betweenEvents eventDuration sortedEvents suggestions in
  let suggestions := afterLastEvent dayEnd eventDuration sortedEvents suggestions in
  let suggestions :=
    noExistingEvents dayStart dayEnd eventDuration requestedStart requestedEnd
                     sortedEvents suggestions in
  Resolved (slice0 3 (filter (withinWorkingHours dayStart dayEnd) suggestions)).

(** ** checkVenueConflict *)

(** The condition under which an existing event is pushed onto
    [conflictingEvents]. *)
Definition timesOverlap (newStart newEnd existingStart existingEnd : Date) : bool :=
  ((newStart >=? existingStart) && (newStart <? existingEnd))
  || ((newEnd >? existingStart) && (newEnd <=? existingEnd))
  || ((newStart <=? existingStart) && (newEnd >=? existingEnd))
  || ((newStart >=? existingStart) && (newEnd <=? existingEnd)).

(** [existingEvents?.forEach(event => { if (...) conflictingEvents.push(event) })] *)
Definition collectConflicts (newStart newEnd : Date)
    (existingEvents : option (list ConflictEvent)) : list ConflictEvent :=
  match existingEvents with
  | Some events =>
      fold_left
        (fun conflictingEvents event =>
           if timesOverlap newStart newEnd (start_time event) (end_time event)
           then push conflictingEvents event
           else conflictingEvents)
        events []
  | None => []
  end.

Definition buildQuery (venueId : string) (eventDate : Z)
    (excludeEventId : option string) : Query :=
  {| eq_venue_id := venueId;
     gte_start_time := dateTime eventDate 0 0 0;
     lt_start_time := dateTime eventDate 23 59 59;
     neq_id := truthy excludeEventId |}.

Definition orEmpty {A : Type} (arr : option (list A)) : list A :=
  match arr with
  | Some l => l
  | None => []
  end.

Definition checkVenueConflict (venueId : string) (startTime endTime : Date)
    (excludeEventId : option string) : Promise ConflictCheck :=
  let newStart := startTime in
  let newEnd := endTime in
  let eventDate := isoDate newStart in
  let query := buildQuery venueId eventDate excludeEventId in
  response <- supabase query ;;
  let existingEvents := data response in
  match error response with
  | Some _ =>
      (* the error is written to the console *)
      Resolved {| hasConflict := false; conflictingEvents := []; suggestedSlots := [] |}
  | None =>
      let conflictingEvents := collectConflicts newStart newEnd existingEvents in
      suggestedSlots <-
        (if (0 <? length conflictingEvents)%nat
         then generateSuggestedSlots venueId eventDate newStart newEnd (orEmpty existingEvents)
         else Resolved []) ;;
      Resolved {| hasConflict := (0 <? length conflictingEvents)%nat;
                  conflictingEvents := conflictingEvents;
                  suggestedSlots := suggestedSlots |}
  end.

End Engine.

Arguments slot slotStart slotEnd : simpl never.

(** ** The design document's reading of the two components *)

(** Section 4.1: the intervals [aStart, aEnd) and [bStart, bEnd) overlap
    iff [aStart < bEnd] and [bStart < aEnd]. *)
Definition overlaps (aStart aEnd bStart bEnd : Date) : bool :=
  (aStart <? bEnd) && (bStart <? aEnd).

Definition slotOverlaps (s : TimeSlot) (booking : ConflictEvent) : bool :=
  overlaps (slot_start_time s) (slot_end_time s) (start_time booking) (end_time booking).

(** Section 4.2, step 3a: the gap before the first booking. *)
Definition beforeFirstSlot (windowStart duration : Z) (bookings : list Span) : list TimeSlot :=
  match bookings with
  | firstBooking :: _ =>
      if windowStart + duration <=? start firstBooking
      then [slot windowStart (windowStart + duration)]
      else []
  | [] => []
  end.

(** Step 3b: the gaps between adjacent bookings, in chronological order. *)
Fixpoint betweenSlots (duration : Z) (bookings : list Span) : list TimeSlot :=
  match bookings with
  | current :: rest =>
      match rest with
      | next :: _ =>
          (if duration <=? start next - end_ current
           then [slot (end_ current) (end_ current + duration)]
           else [])
          ++ betweenSlots duration rest
      | [] => []
      end
  | [] => []
  end.

Fixpoint lastBooking (bookings : list Span) : option Span :=
  match bookings with
  | [] => None
  | b :: rest =>
      match rest with
      | [] => Some b
      | _ :: _ => lastBooking rest
      end
  end.

(** Step 3c: the gap after the last booking. *)
Definition afterLastSlot (windowEnd duration : Z) (bookings : list Span) : list TimeSlot :=
  match lastBooking bookings with
  | Some b =>
      if end_ b + duration <=? windowEnd
      then [slot (end_ b) (end_ b + duration)]
      else []
  | None => []
  end.

(** Step 3d: no existing bookings at all. *)
Definition openingSlot (windowStart windowEnd : Z) (requestStart requestEnd : Date)
    (bookings : list Span) : list TimeSlot :=
  match bookings with
  | [] =>
      if (windowStart <=? requestStart) && (requestEnd <=? windowEnd)
      then [slot windowStart (windowStart + (requestEnd - requestStart))]
      else []
  | _ :: _ => []
  end.

(** Step 4: the candidates in priority order. *)
Definition candidateSlots (windowStart windowEnd : Z) (requestStart requestEnd : Date)
    (bookings : list Span) : list TimeSlot :=
  let duration := requestEnd - requestStart in
  beforeFirstSlot windowStart duration bookings
  ++ betweenSlots duration bookings
  ++ afterLastSlot windowEnd duration bookings
  ++ openingSlot windowStart windowEnd requestStart requestEnd bookings.

Definition maxSuggestions : nat := 3.

(** ** Bookings that are intervals and do not overlap one another *)

Definition positiveSpan (b : Span) : Prop := start b < end_ b.

Definition disjointSpans (a b : Span) : Prop :=
  overlaps (start a) (end_ a) (start b) (end_ b) = false.

Definition disjointEvents (a b : ConflictEvent) : Prop :=
  overlaps (start_time a) (end_time a) (start_time b) (end_time b) = false.

(** [a] starts no later than [b] and has ended when [b] starts. *)
Definition precedes (a b : Span) : Prop := start a <= start b /\ end_ a <= start b.

(** The slot [s] overlaps none of [bookings]. *)
Definition freeOf (bookings : list Span) (s : TimeSlot) : Prop :=
  Forall (fun b => overlaps (slot_start_time s) (slot_end_time s) (start b) (end_ b) = false)
         bookings.

(** ** Collaborators used in the examples *)

(** An in-memory events table; the bounds of the query are read in UTC. *)
Definition selects (q : Query) (row : ConflictEvent) : bool :=
  String.eqb (venue_id row) (eq_venue_id q)
  && (gte_start_time q <=? start_time row)
  && (start_time row <? lt_start_time q)
  && match neq_id q with
     | Some x => negb (String.eqb (id row) x)
     | None => true
     end.

Definition tableStore (rows : list ConflictEvent) (q : Query) : Promise QueryResponse :=
  Resolved {| data := Some (filter (selects q) rows); error := None |}.

(** A store whose every query completes with an error. *)
Definition failingStore (msg : string) (q : Query) : Promise QueryResponse :=
  Resolved {| data := None; error := Some {| message := msg |} |}.

(** A collaborator whose awaited query rejects. *)
Definition rejectingStore (reason : string) (q : Query) : Promise QueryResponse :=
  Rejected reason.

(** A host whose local time is UTC. *)
Definition utcHost (t : Z) : Date := t.

(** The day 2024-10-04 and readings of its clock. *)
Definition aDay : Z := 20000.
Definition clock (hh mm : Z) : Date := dateTime aDay hh mm 0.

Definition booking (name : string) (from to : Date) : ConflictEvent :=
  {| id := name; event_name := name; start_time := from; end_time := to;
     venue_id := "hall"; clubs := {| club_name := "club" |} |}.

Definition bookingA : ConflictEvent := booking "A" (clock 10 0) (clock 12 0).

(** Two bookings of which the earlier-starting one ends later. *)
Definition longBooking : ConflictEvent := booking "long" (clock 9 0) (clock 18 0).
Definition shortBooking : ConflictEvent := booking "short" (clock 10 0) (clock 11 0).

Definition noConflict : ConflictCheck :=
  {| hasConflict := false; conflictingEvents := []; suggestedSlots := [] |}.

(** ** The slots in time *)

(** [s] has ended when [t] begins. *)
Definition slotBefore (s t : TimeSlot) : Prop := slot_end_time s < slot_start_time t.

(** ** Arrays and strings, continued *)

(** [Array.prototype.sort] with a comparator [compareFn]: [a] comes
    before [b] when [compareFn(a, b) < 0], after it when
    [compareFn(a, b) > 0], and elements that compare equal keep their
    order. *)
Fixpoint insertWith {A : Type} (compareFn : A -> A -> Z) (x : A) (l : list A) : list A :=
  match l with
  | [] => [x]
  | y :: l' => if compareFn x y <=? 0 then x :: l else y :: insertWith compareFn x l'
  end.

Definition sortWith {A : Type} (compareFn : A -> A -> Z) (l : list A) : list A :=
  fold_right (insertWith compareFn) [] l.

(** [String.prototype.includes]. *)
Definition includes (s searchString : string) : bool :=
  match index 0 searchString s with
  | Some _ => true
  | None => false
  end.

(** [searchString] occurs in [s], at some position [m]. *)
Definition occursIn (searchString s : string) : Prop :=
  exists m, substring m (String.length searchString) s = searchString.

Definition isEmpty (s : string) : bool :=
  match s with
  | EmptyString => true
  | _ => false
  end.

Definition isSome {A : Type} (x : option A) : bool :=
  match x with
  | Some _ => true
  | None => false
  end.

(** ** Rows and roles (lib/types.ts) *)

Inductive AppRole : Type := super_admin | club_poc.

Module Profile.

Record t : Type := {
  id : string;
  email : string;
  full_name : string;
  role : AppRole;
  club_id : option string;
  created_at : Date
}.

End Profile.

Module Event.

Record t : Type := {
  id : string;
  event_name : string;
  description : option string;
  club_id : string;
  venue_id : string;
  start_time : Date;
  end_time : Date;
  registration_start : Date;
  registration_end : Date;
  is_open : bool;
  created_by : option string;
  created_at : Date;
  updated_at : Date
}.

Definition eq_dec : forall a b : t, {a = b} + {a <> b}.
Proof.
  decide equality;
    try apply Z.eq_dec; try apply string_dec; try apply Bool.bool_dec;
    decide equality; apply string_dec.
Defined.

End Event.

(** What [useAuth] gives a component: the signed-in user, if any, their
    profile, if loaded, and the two role flags. *)
Record Auth : Type := {
  user : option string;
  profile : option Profile.t;
  isSuperAdmin : bool;
  isClubPoc : bool
}.

(** [profile?.club_id === clubId] *)
Definition sameClub (auth : Auth) (clubId : string) : bool :=
  match profile auth with
  | Some p =>
      match Profile.club_id p with
      | Some own => String.eqb own clubId
      | None => false
      end
  | None => false
  end.

(** [profile?.role === 'club_poc'] *)
Definition hasClubPocRole (auth : Auth) : bool :=
  match profile auth with
  | Some p =>
      match Profile.role p with
      | club_poc => true
      | super_admin => false
      end
  | None => false
  end.

(** ** Who may do what *)

Module Navbar.

(** Whether [navLinks] holds the link to [/add-event]. *)
Definition showsAddEvent (auth : Auth) : bool :=
  isSome (user auth) && (isSuperAdmin auth || isClubPoc auth).

End Navbar.

Module EventCard.

Definition canEdit (auth : Auth) (event : Event.t) : bool :=
  isSome (user auth)
  && (isSuperAdmin auth || (hasClubPocRole auth && sameClub auth (Event.club_id event))).

End EventCard.

Module EditEvent.

Inductive EventStatus : Type := open | closed | ended.

Definition canEdit (auth : Auth) (data : Event.t) : bool :=
  isSuperAdmin auth || sameClub auth (Event.club_id data).

(** The status that [fetchEvent] sets for an event it may show, [now]
    being the time it reads. *)
Definition currentStatus (now : Date) (data : Event.t) : EventStatus :=
  let eventEnd := Event.end_time data in
  let regEnd := Event.registration_end data in
  if eventEnd <? now then ended
  else if Event.is_open data && (regEnd >? now) then open
  else closed.

(** The [is_open] that [handleSave] writes. *)
Definition savedIsOpen (eventStatus : EventStatus) : bool :=
  match eventStatus with
  | open => true
  | closed => false
  | ended => false
  end.

End EditEvent.

(** ** The listing of events (pages/Index.tsx) *)

Module Index.

Inductive SortOrder : Type := asc | desc.

(** The state of the filters.  [dateFrom] and [dateTo] hold the day of a
    [YYYY-MM-DD] string, [None] standing for the empty string. *)
Record Filters : Type := {
  search : string;
  clubFilter : string;
  venueFilter : string;
  dateFrom : option Z;
  dateTo : option Z;
  sortOrder : SortOrder
}.

Section Listing.

Variable utcOfLocal : Z -> Date.

(** [String.prototype.toLowerCase]. *)
Variable toLowerCase : string -> string.

Definition matchesSearch (f : Filters) (event : Event.t) : bool :=
  isEmpty (search f)
  || includes (toLowerCase (Event.event_name event)) (toLowerCase (search f))
  || match Event.description event with
     | Some text => includes (toLowerCase text) (toLowerCase (search f))
     | None => false
     end.

Definition matchesClub (f : Filters) (event : Event.t) : bool :=
  isEmpty (clubFilter f) || String.eqb (clubFilter f) "all"
  || String.eqb (Event.club_id event) (clubFilter f).

Definition matchesVenue (f : Filters) (event : Event.t) : bool :=
  isEmpty (venueFilter f) || String.eqb (venueFilter f) "all"
  || String.eqb (Event.venue_id event) (venueFilter f).

(** [new Date(dateFrom)]: a date-only string is read as midnight UTC. *)
Definition matchesDateFrom (f : Filters) (event : Event.t) : bool :=
  match dateFrom f with
  | None => true
  | Some day => Event.start_time event >=? day * msPerDay
  end.

(** [new Date(dateTo + 'T23:59:59')]: read in the host time zone. *)
Definition matchesDateTo (f : Filters) (event : Event.t) : bool :=
  match dateTo f with
  | None => true
  | Some day => Event.start_time event <=? utcOfLocal (dateTime day 23 59 59)
  end.

Definition matches (f : Filters) (event : Event.t) : bool :=
  matchesSearch f event && matchesClub f event && matchesVenue f event
  && matchesDateFrom f event && matchesDateTo f event.

(** The comparator of the sort. *)
Definition byDate (order : SortOrder) (a b : Event.t) : Z :=
  let dateA := Event.start_time a in
  let dateB := Event.start_time b in
  match order with
  | asc => dateA - dateB
  | desc => dateB - dateA
  end.

Definition filteredEvents (f : Filters) (events : list Event.t) : list Event.t :=
  sortWith (byDate (sortOrder f)) (filter (matches f) events).

(** What the filters ask of an event, in words: the search text, when
    there is one, occurs in its name or in its description, letter case
    aside; it is of the chosen club and at the chosen venue, when one is
    chosen ([all] chooses none); it starts no earlier than midnight UTC
    of the first day and no later than 23:59:59, in the host time zone,
    of the last day, when these are given. *)
Definition shows (f : Filters) (event : Event.t) : Prop :=
  (search f = EmptyString
   \/ occursIn (toLowerCase (search f)) (toLowerCase (Event.event_name event))
   \/ exists text,
       Event.description event = Some text
       /\ occursIn (toLowerCase (search f)) (toLowerCase text))
  /\ (clubFilter f = EmptyString \/ clubFilter f = "all"%string
      \/ Event.club_id event = clubFilter f)
  /\ (venueFilter f = EmptyString \/ venueFilter f = "all"%string
      \/ Event.venue_id event = venueFilter f)
  /\ (forall day, dateFrom f = Some day -> day * msPerDay <= Event.start_time event)
  /\ (forall day,
         dateTo f = Some day ->
         Event.start_time event <= utcOfLocal (dateTime day 23 59 59)).

End Listing.

(** [clearFilters]; the sort order is kept. *)
Definition clearFilters (f : Filters) : Filters :=
  {| search := EmptyString; clubFilter := EmptyString; venueFilter := EmptyString;
     dateFrom := None; dateTo := None; sortOrder := sortOrder f |}.

Definition setSortOrder (f : Filters) (order : SortOrder) : Filters :=
  {| search := search f; clubFilter := clubFilter f; venueFilter := venueFilter f;
     dateFrom := dateFrom f; dateTo := dateTo f; sortOrder := order |}.

End Index.

(** ** The page that creates an event (pages/AddEvent.tsx)

    [handleSubmit] validates the form, asks [checkVenueConflict] and
    either shows the conflict dialog or goes on to [createEvent];
    [handleSelectSlot] puts a suggested slot into the form. *)

Module AddEvent.

Record Venue : Type := { id : string; venue_name : string }.

(** The state [formData].  A date field holds the instant that
    [new Date] reads from its string, [None] standing for the empty
    string; strings that [new Date] cannot read are not represented. *)
Record FormData : Type := {
  event_name : string;
  description : string;
  venue_id : string;
  start_time : option Date;
  end_time : option Date;
  registration_start : option Date;
  registration_end : option Date;
  is_open : bool;
  club_id : string
}.

(** What a run of [handleSubmit] leaves on the screen. *)
Inductive Submitted : Type :=
| ShowErrors (errors : list (string * string))
| ShowConflict (venueName : string) (conflictingEvents : list ConflictEvent)
               (suggestedSlots : list TimeSlot)
| CreateEvent
| CheckFailed.

Definition issue (field message : string) : string * string := (field, message).

Definition minLength (n : nat) (field message value : string) : list (string * string) :=
  if (String.length value <? n)%nat then [issue field message] else [].

Definition nonEmpty (field message : string) (value : option Date) : list (string * string) :=
  match value with
  | Some _ => []
  | None => [issue field message]
  end.

(** The issues of [eventSchema.safeParse], keyed by field. *)
Definition eventSchema (formData : FormData) : list (string * string) :=
  minLength 3 "event_name" "Event name must be at least 3 characters" (event_name formData)
  ++ minLength 1 "venue_id" "Please select a venue" (venue_id formData)
  ++ nonEmpty "start_time" "Start time is required" (start_time formData)
  ++ nonEmpty "end_time" "End time is required" (end_time formData)
  ++ nonEmpty "registration_start" "Registration start is required"
              (registration_start formData)
  ++ nonEmpty "registration_end" "Registration end is required" (registration_end formData).

Definition orDefault (value fallback : string) : string :=
  match value with
  | EmptyString => fallback
  | _ => value
  end.

Definition venueNameOf (venues : list Venue) (venueId : string) : string :=
  match find (fun v => String.eqb (id v) venueId) venues with
  | Some selectedVenue => orDefault (venue_name selectedVenue) "Selected Venue"
  | None => "Selected Venue"
  end.

Section Handlers.

Variable utcOfLocal : Z -> Date.
Variable supabase : Query -> Promise QueryResponse.
Variable venues : list Venue.

Definition handleSubmit (formData : FormData) : Submitted :=
  match eventSchema formData,
        start_time formData, end_time formData,
        registration_start formData, registration_end formData with
  | [], Some startTime, Some endTime, Some regStart, Some regEnd =>
      match club_id formData with
      | EmptyString => ShowErrors [issue "club_id" "Please select a club"]
      | _ =>
          if endTime <=? startTime then
            ShowErrors [issue "end_time" "End time must be after start time"]
          else if regEnd <=? regStart then
            ShowErrors [issue "registration_end"
                              "Registration end must be after registration start"]
          else if regEnd >? startTime then
            ShowErrors [issue "registration_end" "Registration must end before event starts"]
          else
            match checkVenueConflict utcOfLocal supabase (venue_id formData)
                                     startTime endTime None with
            | Resolved conflictCheck =>
                if hasConflict conflictCheck
                then ShowConflict (venueNameOf venues (venue_id formData))
                                  (conflictingEvents conflictCheck)
                                  (suggestedSlots conflictCheck)
                else CreateEvent
            | Rejected _ => CheckFailed
            end
      end
  | issues, _, _, _, _ => ShowErrors issues
  end.

Definition handleSelectSlot (formData : FormData) (slot : TimeSlot) : FormData :=
  {| event_name := event_name formData;
     description := description formData;
     venue_id := venue_id formData;
     start_time := Some (slot_start_time slot);
     end_time := Some (slot_end_time slot);
     registration_start := registration_start formData;
     registration_end := registration_end formData;
     is_open := is_open formData;
     club_id := club_id formData |}.

End Handlers.

(** What [handleSubmit] does with the result of the conflict check. *)
Definition afterCheck (venueName : string) (result : Promise ConflictCheck) : Submitted :=
  match result with
  | Resolved conflictCheck =>
      if hasConflict conflictCheck
      then ShowConflict venueName (conflictingEvents conflictCheck)
                        (suggestedSlots conflictCheck)
      else CreateEvent
  | Rejected _ => CheckFailed
  end.

(** The forms that pass every check of [handleSubmit]. *)
Definition acceptable (formData : FormData) : Prop :=
  (3 <= String.length (event_name formData))%nat
  /\ venue_id formData <> EmptyString
  /\ club_id formData <> EmptyString
  /\ exists startTime endTime regStart regEnd,
      start_time formData = Some startTime
      /\ end_time formData = Some endTime
      /\ registration_start formData = Some regStart
      /\ registration_end formData = Some regEnd
      /\ regStart < regEnd /\ regEnd <= startTime /\ startTime < endTime.

(** The guard of the page: whether its effect sends the visitor to
    [/login]. *)
Definition redirectsToLogin (auth : Auth) : bool :=
  negb (isSome (user auth)) || (negb (isSuperAdmin auth) && negb (isClubPoc auth)).

(** A form for a two-hour event at 11:00, registration from 07:00 to
    08:00. *)
Definition hackathon : FormData :=
  {| event_name := "Hackathon";
     description := "All night";
     venue_id := "hall";
     start_time := Some (clock 11 0);
     end_time := Some (clock 13 0);
     registration_start := Some (clock 7 0);
     registration_end := Some (clock 8 0);
     is_open := true;
     club_id := "ospc" |}.

End AddEvent.

Definition bookingB : ConflictEvent := booking "B" (clock 13 0) (clock 14 0).

(** ** The edge functions (supabase/functions)

    The calls a handler makes to the outside are recorded in the order
    it makes them; what a call returns may depend on the calls made
    before it.  The message of a thrown [Error] is the reason of the
    rejection. *)

Module Edge.

(** The JSON posted to the mail provider. *)
Record EmailPayload : Type := {
  from : string;
  to : list (option string);
  subject : string;
  html : string
}.

Inductive Call : Type :=
| Fetch (authorization : string) (payload : EmailPayload)
| Update (notificationId : string).

(** The [Response] of [fetch], as far as it is read. *)
Record FetchResponse : Type := {
  ok : bool;
  text : Promise string;
  json : Promise unit
}.

(** A computation that makes calls and then resolves or rejects. *)
Definition Effect (A : Type) : Type := list Call -> list Call * Promise A.

Definition ret {A : Type} (value : A) : Effect A := fun calls => (calls, Resolved value).

Definition throw {A : Type} (message : string) : Effect A :=
  fun calls => (calls, Rejected message).

Definition lift {A : Type} (p : Promise A) : Effect A := fun calls => (calls, p).

Definition bind {A B : Type} (e : Effect A) (k : A -> Effect B) : Effect B :=
  fun calls =>
    match e calls with
    | (calls', Resolved value) => k value calls'
    | (calls', Rejected message) => (calls', Rejected message)
    end.

(** [try { e } catch (error) { handler(error.message) }] *)
Definition tryCatch {A : Type} (e : Effect A) (handler : string -> Effect A) : Effect A :=
  fun calls =>
    match e calls with
    | (calls', Resolved value) => (calls', Resolved value)
    | (calls', Rejected message) => handler message calls'
    end.

Definition sender : string := "VIT Event Hub <noreply@your-domain.com>".

Definition fetchCalls (made : list Call) : nat :=
  length (filter (fun c => match c with Fetch _ _ => true | Update _ => false end) made).

Definition updateCalls (made : list Call) : nat :=
  length (filter (fun c => match c with Update _ => true | Fetch _ _ => false end) made).

End Edge.

Notation "x <~ e ;;; k" := (Edge.bind e (fun x => k))
  (at level 61, e at next level, right associativity).

(** *** send-welcome-email *)

Module SendWelcomeEmail.

Import Edge.

(** The body of the request, as [req.json()] gives it; a field that is
    absent is [None]. *)
Record WelcomeEmailRequest : Type := {
  email : option string;
  eventName : option string;
  eventDate : option string;
  eventTime : option string;
  venueName : option string;
  registrationEnd : option string
}.

Record Request : Type := { method : string; body : Promise WelcomeEmailRequest }.

Inductive ResponseBody : Type :=
| PlainOk
| Success (message : string)
| Failure (error : string).

Record Response : Type := { status : Z; content : ResponseBody }.

Section Handler.

(** [Deno.env.get('RESEND_API_KEY')] *)
Variable RESEND_API_KEY : option string.

(** [fetch('https://api.resend.com/emails', ...)], given the calls made
    so far. *)
Variable resend : list Call -> string -> EmailPayload -> Promise FetchResponse.

(** The page that [generateWelcomeHTML] builds. *)
Variable generateWelcomeHTML : WelcomeEmailRequest -> string.

(** [`${s}`] of a field: an absent one reads [undefined]. *)
Definition interpolate (field : option string) : string :=
  match field with
  | Some s => s
  | None => "undefined"
  end.

Definition sendWelcomeEmail (emailData : WelcomeEmailRequest) : Effect unit :=
  match truthy RESEND_API_KEY with
  | None => throw "RESEND_API_KEY environment variable is not set"
  | Some key =>
      let html := generateWelcomeHTML emailData in
      let authorization := ("Bearer " ++ key)%string in
      let payload :=
        {| from := sender;
           to := [email emailData];
           subject := ("✅ You're subscribed to " ++ interpolate (eventName emailData))%string;
           html := html |} in
      response <~ (fun calls =>
                     (calls ++ [Fetch authorization payload],
                      resend calls authorization payload)) ;;;
      if ok response
      then lift (json response)
      else error <~ lift (text response) ;;;
           throw ("Failed to send email: " ++ error)%string
  end.

Definition serve (req : Request) : Effect Response :=
  if String.eqb (method req) "OPTIONS" then
    ret {| status := 200; content := PlainOk |}
  else
    tryCatch
      (emailData <~ lift (body req) ;;;
       match truthy (email emailData), truthy (eventName emailData) with
       | Some _, Some _ =>
           _ <~ sendWelcomeEmail emailData ;;;
           ret {| status := 200; content := Success "Welcome email sent successfully" |}
       | _, _ => throw "Missing required fields: email and eventName"
       end)
      (fun message => ret {| status := 400; content := Failure message |}).

End Handler.

End SendWelcomeEmail.

(** *** send-notifications *)

Module SendNotifications.

Import Edge.

Record Venue : Type := { venue_name : string }.

(** The joined [events] row of a notification. *)
Record EventRow : Type := {
  event_name : string;
  start_time : Date;
  end_time : Date;
  registration_end : Date;
  venues : option Venue
}.

Record Notification : Type := {
  id : string;
  email : string;
  events : EventRow
}.

Record NotificationsResponse : Type := {
  data : option (list Notification);
  error : option PostgrestError
}.

Record EmailRequest : Type := { to : string; subject : string; html : string }.

Record EmailError : Type := {
  notificationId : string;
  failedEmail : string;
  errorMessage : string
}.

Inductive ResponseBody : Type :=
| PlainOk
| Report (emailsSent : nat) (totalNotifications : nat) (errors : list EmailError)
| Failure (error : string).

Record Response : Type := { status : Z; content : ResponseBody }.

Section Handler.

(** [Deno.env.get('RESEND_API_KEY')] *)
Variable RESEND_API_KEY : option string.

(** [fetch('https://api.resend.com/emails', ...)] and the awaited
    [update(...).eq('id', id)], given the calls made so far. *)
Variable resend : list Call -> string -> EmailPayload -> Promise FetchResponse.
Variable update : list Call -> string -> Promise unit.

(** The awaited query for the pending notifications whose registration
    ends within two hours. *)
Variable pending : Promise NotificationsResponse.

(** The texts of the locale ([toLocaleDateString], [toLocaleTimeString],
    [toLocaleString] with the options of the source), the page that
    [generateReminderHTML] builds, and the message of the engine when a
    loop runs over [null]. *)
Variable toLocaleDateString toLocaleTimeString toLocaleString : Date -> string.
Variable generateReminderHTML : string -> string -> string -> string -> string -> string.
Variable notIterable : string.

Definition sendEmail (emailData : EmailRequest) : Effect unit :=
  match truthy RESEND_API_KEY with
  | None => throw "RESEND_API_KEY environment variable is not set"
  | Some key =>
      let authorization := ("Bearer " ++ key)%string in
      let payload :=
        {| Edge.from := sender;
           Edge.to := [Some (to emailData)];
           Edge.subject := subject emailData;
           Edge.html := html emailData |} in
      response <~ (fun calls =>
                     (calls ++ [Fetch authorization payload],
                      resend calls authorization payload)) ;;;
      if ok response
      then lift (json response)
      else error <~ lift (text response) ;;;
           throw ("Failed to send email: " ++ error)%string
  end.

Definition venueNameOf (event : EventRow) : string :=
  match venues event with
  | Some v => match venue_name v with EmptyString => "TBA" | name => name end
  | None => "TBA"
  end.

(** The body of the [try] inside the loop. *)
Definition remind (notification : Notification) : Effect unit :=
  let event := events notification in
  let eventDate := toLocaleDateString (start_time event) in
  let eventTime :=
    (toLocaleTimeString (start_time event) ++ " - "
     ++ toLocaleTimeString (end_time event))%string in
  let registrationEnd := toLocaleString (registration_end event) in
  let html :=
    generateReminderHTML (event_name event) eventDate eventTime registrationEnd
                         (venueNameOf event) in
  _ <~ sendEmail {| to := email notification;
                    subject := ("⏰ Registration ends soon: " ++ event_name event)%string;
                    html := html |} ;;;
  (fun calls => (calls ++ [Update (id notification)], update calls (id notification))).

(** [for (const notification of notifications) { try {...} catch {...} }] *)
Fixpoint forEach (notifications : list Notification)
         (emailsSent : nat) (emailErrors : list EmailError)
  : Effect (nat * list EmailError) :=
  match notifications with
  | [] => ret (emailsSent, emailErrors)
  | notification :: rest =>
      counters <~ tryCatch
                    (_ <~ remind notification ;;; ret (S emailsSent, emailErrors))
                    (fun message =>
                       ret (emailsSent,
                            push emailErrors
                                 {| notificationId := id notification;
                                    failedEmail := email notification;
                                    errorMessage := message |})) ;;;
      forEach rest (fst counters) (snd counters)
  end.

Definition serve (method : string) : Effect Response :=
  if String.eqb method "OPTIONS" then
    ret {| status := 200; content := PlainOk |}
  else
    tryCatch
      (response <~ lift pending ;;;
       match error response with
       | Some notificationsError => throw (message notificationsError)
       | None =>
           match data response with
           | None => throw notIterable
           | Some notifications =>
               counters <~ forEach notifications 0%nat [] ;;;
               ret {| status := 200;
                      content := Report (fst counters) (length notifications)
                                        (snd counters) |}
           end
       end)
      (fun message => ret {| status := 400; content := Failure message |}).

End Handler.

(** The error recorded for a notification when the key is not set. *)
Definition missingKey (notification : Notification) : EmailError :=
  {| notificationId := id notification;
     failedEmail := email notification;
     errorMessage := "RESEND_API_KEY environment variable is not set" |}.

(** What one turn of the loop may have called, and how it may have
    ended: nothing and a failure, the provider alone and a failure, or
    the provider and then the update. *)
Inductive Turn : list Call -> Promise unit -> Prop :=
| NothingPosted message : Turn [] (Rejected message)
| PostFailed authorization payload message :
    Turn [Fetch authorization payload] (Rejected message)
| Marked authorization payload notificationId outcome :
    Turn [Fetch authorization payload; Update notificationId] outcome.

End SendNotifications.

(** *** lib/emailService.ts *)

Module EmailService.

Import Edge.

Record Reminders : Type := { sent : nat; errors : nat }.

Section Reminding.

(** The awaited query for the pending notifications whose registration
    ends within two hours, and the awaited [update(...).eq('id', id)]
    given the calls made so far. *)
Variable pending : Promise SendNotifications.NotificationsResponse.
Variable update : list Call -> string -> Promise unit.

(** [for (const notification of notifications) { try {...} catch {...} }];
    the reminder itself is only written to the console, from the dates
    of a stored event, which [format] renders. *)
Fixpoint forEach (notifications : list SendNotifications.Notification)
         (sent errors : nat) : Effect Reminders :=
  match notifications with
  | [] => ret {| sent := sent; errors := errors |}
  | notification :: rest =>
      counters <~ tryCatch
                    (_ <~ (fun calls =>
                             (calls ++ [Update (SendNotifications.id notification)],
                              update calls (SendNotifications.id notification))) ;;;
                     ret (S sent, errors))
                    (fun _ => ret (sent, S errors)) ;;;
      forEach rest (fst counters) (snd counters)
  end.

Definition checkAndSendReminders : Effect Reminders :=
  tryCatch
    (response <~ lift pending ;;;
     match SendNotifications.error response, SendNotifications.data response with
     | None, Some notifications =>
         if (length notifications =? 0)%nat
         then ret {| sent := 0; errors := 0 |}
         else forEach notifications 0 0
     | _, _ => ret {| sent := 0; errors := 1 |}
     end)
    (fun _ => ret {| sent := 0; errors := 1 |}).

(** The calls on record when the loop reaches the notification at
    [index]: those made before the loop, then one update for each
    earlier notification. *)
Definition callsBefore (calls : list Call)
           (notifications : list SendNotifications.Notification) (index : nat) : list Call :=
  calls ++ map (fun n => Update (SendNotifications.id n)) (firstn index notifications).

(** Whether the store resolves, or rejects, the update of the
    notification at [index] when the loop asks for it. *)
Definition updateResolves (calls : list Call)
           (notifications : list SendNotifications.Notification) (index : nat) : bool :=
  match nth_error notifications index with
  | Some notification =>
      match update (callsBefore calls notifications index)
                   (SendNotifications.id notification) with
      | Resolved _ => true
      | Rejected _ => false
      end
  | None => false
  end.

Definition updateRejects (calls : list Call)
           (notifications : list SendNotifications.Notification) (index : nat) : bool :=
  match nth_error notifications index with
  | Some notification =>
      match update (callsBefore calls notifications index)
                   (SendNotifications.id notification) with
      | Resolved _ => false
      | Rejected _ => true
      end
  | None => false
  end.

Definition resolvedUpdates (calls : list Call)
           (notifications : list SendNotifications.Notification) : nat :=
  length (filter (updateResolves calls notifications) (seq 0 (length notifications))).

Definition rejectedUpdates (calls : list Call)
           (notifications : list SendNotifications.Notification) : nat :=
  length (filter (updateRejects calls notifications) (seq 0 (length notifications))).

End Reminding.

End EmailService.

(** ** Collaborators and rows used in the examples, continued *)

(** A mail provider that accepts every message, and one that accepts
    the first message only. *)
Definition accepted : Edge.FetchResponse :=
  {| Edge.ok := true; Edge.text := Resolved "{}"%string; Edge.json := Resolved tt |}.

Definition refused : Edge.FetchResponse :=
  {| Edge.ok := false; Edge.text := Resolved "rate limited"%string;
     Edge.json := Resolved tt |}.

Definition acceptingResend (calls : list Edge.Call) (authorization : string)
    (payload : Edge.EmailPayload) : Promise Edge.FetchResponse :=
  Resolved accepted.

Definition tiringResend (calls : list Edge.Call) (authorization : string)
    (payload : Edge.EmailPayload) : Promise Edge.FetchResponse :=
  match calls with
  | [] => Resolved accepted
  | _ :: _ => Resolved refused
  end.

Definition resolvingUpdate (calls : list Edge.Call) (notificationId : string) : Promise unit :=
  Resolved tt.

(** A store that rejects the update of notification [n2]. *)
Definition flakyUpdate (calls : list Edge.Call) (notificationId : string) : Promise unit :=
  if (notificationId =? "n2")%string then Rejected "update failed" else Resolved tt.

Definition plainText (d : Date) : string := "text".

Definition plainPage (eventName eventDate eventTime registrationEnd venueName : string)
  : string := eventName.

Definition subscription (name address : string) : SendNotifications.Notification :=
  {| SendNotifications.id := name;
     SendNotifications.email := address;
     SendNotifications.events :=
       {| SendNotifications.event_name := "Hackathon";
          SendNotifications.start_time := clock 11 0;
          SendNotifications.end_time := clock 13 0;
          SendNotifications.registration_end := clock 8 0;
          SendNotifications.venues := None |} |}.

Definition twoPending : Promise SendNotifications.NotificationsResponse :=
  Resolved {| SendNotifications.data :=
                Some [subscription "n1" "ann@vit.example"; subscription "n2" "raj@vit.example"];
              SendNotifications.error := None |}.

Definition welcomeRequest : SendWelcomeEmail.Request :=
  {| SendWelcomeEmail.method := "POST";
     SendWelcomeEmail.body :=
       Resolved {| SendWelcomeEmail.email := Some "ann@vit.example"%string;
                   SendWelcomeEmail.eventName := Some "Hackathon"%string;
                   SendWelcomeEmail.eventDate := None;
                   SendWelcomeEmail.eventTime := None;
                   SendWelcomeEmail.venueName := None;
                   SendWelcomeEmail.registrationEnd := None |} |}.

Definition anonymousRequest : SendWelcomeEmail.Request :=
  {| SendWelcomeEmail.method := "POST";
     SendWelcomeEmail.body :=
       Resolved {| SendWelcomeEmail.email := None;
                   SendWelcomeEmail.eventName := Some "Hackathon"%string;
                   SendWelcomeEmail.eventDate := None;
                   SendWelcomeEmail.eventTime := None;
                   SendWelcomeEmail.venueName := None;
                   SendWelcomeEmail.registrationEnd := None |} |}.

Definition welcomePage (emailData : SendWelcomeEmail.WelcomeEmailRequest) : string :=
  "welcome".

(** An event of the club [ospc], and three visitors. *)
Definition talk (name : string) (from to : Date) : Event.t :=
  {| Event.id := name; Event.event_name := name; Event.description := None;
     Event.club_id := "ospc"; Event.venue_id := "hall";
     Event.start_time := from; Event.end_time := to;
     Event.registration_start := clock 7 0; Event.registration_end := clock 8 0;
     Event.is_open := true; Event.created_by := None;
     Event.created_at := clock 6 0; Event.updated_at := clock 6 0 |}.

Definition pocOf (club : string) : Auth :=
  {| user := Some "u1"%string;
     profile := Some {| Profile.id := "u1"; Profile.email := "poc@vit.example";
                        Profile.full_name := "Poc"; Profile.role := club_poc;
                        Profile.club_id := Some club; Profile.created_at := clock 6 0 |};
     isSuperAdmin := false;
     isClubPoc := true |}.

Definition lowerCase (s : string) : string := s.

(** The events of the club [ospc] with [ear] in their name or
    description that start on the day of the examples. *)
Definition clubOnly : Index.Filters :=
  {| Index.search := "ear"; Index.clubFilter := "ospc";
     Index.venueFilter := EmptyString; Index.dateFrom := Some aDay;
     Index.dateTo := Some aDay; Index.sortOrder := Index.asc |}.

Definition noFilters : Index.Filters :=
  {| Index.search := EmptyString; Index.clubFilter := EmptyString;
     Index.venueFilter := EmptyString; Index.dateFrom := None; Index.dateTo := None;
     Index.sortOrder := Index.asc |}.

(** * Properties *)

(** ** Comparisons *)

Ltac compare_all :=
  rewrite ?Z.geb_leb, ?Z.gtb_ltb in *;
  repeat match goal with
         | |- context [?a <=? ?b] => destruct (Z.leb_spec a b)
         | |- context [?a <? ?b] => destruct (Z.ltb_spec a b)
         | H : context [?a <=? ?b] |- _ => destruct (Z.leb_spec a b)
         | H : context [?a <? ?b] |- _ => destruct (Z.ltb_spec a b)
         end;
  simpl in *; try reflexivity; try discriminate; try lia.

Lemma timesOverlap_overlaps newStart newEnd existingStart existingEnd :
  newStart < newEnd -> existingStart < existingEnd ->
  timesOverlap newStart newEnd existingStart existingEnd
  = overlaps newStart newEnd existingStart existingEnd.
Proof.
  intros Hnew Hexisting. unfold timesOverlap, overlaps. compare_all.
Qed.

Lemma overlaps_sym aStart aEnd bStart bEnd :
  overlaps aStart aEnd bStart bEnd = overlaps bStart bEnd aStart aEnd.
Proof. unfold overlaps. apply andb_comm. Qed.

(** ** The conflict loop is a filter *)

Lemma collect_fold (keep : ConflictEvent -> bool) events :
  forall acc,
    fold_left (fun conflicting event => if keep event then push conflicting event else conflicting)
              events acc
    = acc ++ filter keep events.
Proof.
  induction events as [|event events IH]; intros acc; simpl.
  - now rewrite app_nil_r.
  - rewrite IH. destruct (keep event); [|reflexivity].
    unfold push. now rewrite <- app_assoc.
Qed.

Lemma collectConflicts_filter newStart newEnd events :
  collectConflicts newStart newEnd (Some events)
  = filter (fun event => timesOverlap newStart newEnd (start_time event) (end_time event)) events.
Proof.
  unfold collectConflicts.
  exact (collect_fold
           (fun event => timesOverlap newStart newEnd (start_time event) (end_time event))
           events []).
Qed.

Lemma Resolved_inj {A : Type} (a b : A) : Resolved a = Resolved b -> a = b.
Proof. congruence. Qed.

Lemma nonempty_length {A : Type} (l : list A) :
  (0 <? length l)%nat = true <-> l <> [].
Proof.
  destruct l; simpl; split; intro H; try discriminate; try reflexivity.
  now contradiction H.
Qed.

(** ** The pushes of the suggester are the candidates, in order *)

Lemma beforeFirstEvent_app dayStart duration sorted acc :
  beforeFirstEvent dayStart duration sorted acc
  = acc ++ beforeFirstSlot dayStart duration sorted.
Proof.
  unfold beforeFirstEvent, beforeFirstSlot, push.
  destruct sorted as [|firstEvent rest]; [now rewrite app_nil_r|].
  destruct (dayStart + duration <=? start firstEvent); [reflexivity|now rewrite app_nil_r].
Qed.

Lemma betweenEvents_from duration :
  forall rest done acc,
    fold_left (betweenEventsBody duration (done ++ rest))
              (seq (length done) (length rest - 1)) acc
    = acc ++ betweenSlots duration rest.
Proof.
  induction rest as [|current rest IH]; intros done acc.
  - simpl. now rewrite app_nil_r.
  - destruct rest as [|next rest].
    + simpl. now rewrite app_nil_r.
    + replace (length (current :: next :: rest) - 1)%nat with (S (length (next :: rest) - 1))
        by (simpl; lia).
      rewrite <- cons_seq. cbn [fold_left].
      specialize (IH (done ++ [current])).
      rewrite <- app_assoc, length_app in IH. cbn [app length] in IH.
      rewrite Nat.add_1_r in IH. rewrite IH.
      unfold betweenEventsBody at 1.
      rewrite Nat.add_1_r.
      assert (Hcurrent : nth_error (done ++ current :: next :: rest) (length done)
                         = Some current)
        by (rewrite nth_error_app2, Nat.sub_diag by lia; reflexivity).
      assert (Hnext : nth_error (done ++ current :: next :: rest) (S (length done))
                      = Some next).
      { rewrite nth_error_app2 by lia.
        replace (S (length done) - length done)%nat with 1%nat by lia. reflexivity. }
      rewrite Hcurrent, Hnext.
      cbn [betweenSlots]. rewrite Z.geb_leb. unfold push.
      destruct (duration <=? start next - end_ current).
      * now rewrite <- app_assoc.
      * reflexivity.
Qed.

Lemma betweenEvents_app duration sorted acc :
  betweenEvents duration sorted acc = acc ++ betweenSlots duration sorted.
Proof. exact (betweenEvents_from duration sorted [] acc). Qed.

Lemma nth_error_lastBooking (l : list Span) :
  nth_error l (length l - 1) = lastBooking l.
Proof.
  induction l as [|b rest IH]; [reflexivity|].
  destruct rest as [|b' rest]; [reflexivity|].
  change (lastBooking (b :: b' :: rest)) with (lastBooking (b' :: rest)).
  rewrite <- IH. cbn [length].
  replace (S (S (length rest)) - 1)%nat with (S (S (length rest) - 1)) by lia.
  reflexivity.
Qed.

Lemma afterLastEvent_app dayEnd duration sorted acc :
  afterLastEvent dayEnd duration sorted acc
  = acc ++ afterLastSlot dayEnd duration sorted.
Proof.
  unfold afterLastEvent, afterLastSlot, push.
  rewrite nth_error_lastBooking.
  destruct sorted as [|b rest]; [now rewrite app_nil_r|].
  cbn [length Nat.ltb Nat.leb].
  destruct (lastBooking (b :: rest)) as [lastEvent|]; [|now rewrite app_nil_r].
  destruct (end_ lastEvent + duration <=? dayEnd); [reflexivity|now rewrite app_nil_r].
Qed.

Lemma noExistingEvents_app dayStart dayEnd requestedStart requestedEnd sorted acc :
  noExistingEvents dayStart dayEnd (requestedEnd - requestedStart)
                   requestedStart requestedEnd sorted acc
  = acc ++ openingSlot dayStart dayEnd requestedStart requestedEnd sorted.
Proof.
  unfold noExistingEvents, openingSlot, push.
  destruct sorted as [|b rest]; cbn [length Nat.eqb]; [|now rewrite app_nil_r].
  rewrite Z.geb_leb.
  destruct ((dayStart <=? requestedStart) && (requestedEnd <=? dayEnd));
    [reflexivity|now rewrite app_nil_r].
Qed.

Lemma generateSuggestedSlots_candidates utcOfLocal venueId eventDate
      requestedStart requestedEnd existingEvents :
  generateSuggestedSlots utcOfLocal venueId eventDate requestedStart requestedEnd existingEvents
  = Resolved
      (firstn 3
         (filter (withinWorkingHours (dayStartOf utcOfLocal eventDate) (dayEndOf utcOfLocal eventDate))
            (candidateSlots (dayStartOf utcOfLocal eventDate) (dayEndOf utcOfLocal eventDate)
               requestedStart requestedEnd (sortByStart (map toSpan existingEvents))))).
Proof.
  unfold generateSuggestedSlots, slice0, candidateSlots.
  rewrite noExistingEvents_app, afterLastEvent_app, betweenEvents_app, beforeFirstEvent_app.
  cbn [app]. now rewrite <- !app_assoc.
Qed.

Lemma withinWorkingHours_bounds dayStart dayEnd s :
  withinWorkingHours dayStart dayEnd s = true <->
  dayStart <= slot_start_time s /\ slot_end_time s <= dayEnd.
Proof.
  unfold withinWorkingHours. rewrite Z.geb_leb, andb_true_iff, !Z.leb_le. tauto.
Qed.

Lemma candidateSlots_duration windowStart windowEnd requestStart requestEnd bookings s :
  In s (candidateSlots windowStart windowEnd requestStart requestEnd bookings) ->
  slot_end_time s - slot_start_time s = requestEnd - requestStart.
Proof.
  unfold candidateSlots. rewrite !in_app_iff.
  assert (Hslot : forall from, In s [slot from (from + (requestEnd - requestStart))] ->
                               slot_end_time s - slot_start_time s = requestEnd - requestStart).
  { intros from [<-|[]]. unfold slot. simpl. lia. }
  intros [H|[H|[H|H]]].
  - unfold beforeFirstSlot in H. destruct bookings as [|b rest]; [contradiction|].
    destruct (_ <=? _); [eauto|contradiction].
  - induction bookings as [|current rest IH]; [contradiction|].
    destruct rest as [|next rest]; [contradiction|].
    cbn [betweenSlots] in H. rewrite in_app_iff in H. destruct H as [H|H]; [|auto].
    destruct (_ <=? _); [eauto|contradiction].
  - unfold afterLastSlot in H. destruct (lastBooking bookings) as [b|]; [|contradiction].
    destruct (_ <=? _); [eauto|contradiction].
  - unfold openingSlot in H. destruct bookings; [|contradiction].
    destruct (_ && _); [eauto|contradiction].
Qed.

Lemma firstn_In {A : Type} (n : nat) (l : list A) (x : A) :
  In x (firstn n l) -> In x l.
Proof.
  revert n. induction l as [|y l IH]; intros [|n]; simpl; try tauto.
  intros [H|H]; [now left|right; eauto].
Qed.

Lemma generateSuggestedSlots_within utcOfLocal venueId eventDate
      requestedStart requestedEnd existingEvents slots s :
  generateSuggestedSlots utcOfLocal venueId eventDate requestedStart requestedEnd existingEvents
  = Resolved slots ->
  In s slots ->
  withinWorkingHours (dayStartOf utcOfLocal eventDate) (dayEndOf utcOfLocal eventDate) s = true
  /\ In s (candidateSlots (dayStartOf utcOfLocal eventDate) (dayEndOf utcOfLocal eventDate)
             requestedStart requestedEnd (sortByStart (map toSpan existingEvents))).
Proof.
  rewrite generateSuggestedSlots_candidates. intros Hslots Hin.
  apply (f_equal (fun p => match p with Resolved l => l | Rejected _ => [] end)) in Hslots.
  rewrite <- Hslots in Hin.
  apply firstn_In, filter_In in Hin. tauto.
Qed.

(** ** Scenarios of the design document, section 8 *)

Example scenario_no_bookings :
  checkVenueConflict utcHost (tableStore []) "hall" (clock 10 0) (clock 12 0) None
  = Resolved noConflict.
Proof. reflexivity. Qed.

Example scenario_after_gap :
  checkVenueConflict utcHost (tableStore [bookingA]) "hall" (clock 11 0) (clock 13 0) None
  = Resolved {| hasConflict := true;
                conflictingEvents := [bookingA];
                suggestedSlots := [slot (clock 12 0) (clock 14 0)] |}.
Proof. reflexivity. Qed.

Example scenario_conflicts_with_neither :
  checkVenueConflict utcHost
    (tableStore [booking "A" (clock 9 0) (clock 10 0); booking "B" (clock 15 0) (clock 16 0)])
    "hall" (clock 12 0) (clock 13 0) None
  = Resolved noConflict.
Proof. reflexivity. Qed.

Example scenario_short_gap_skipped :
  let A := booking "A" (clock 9 0) (clock 11 0) in
  let B := booking "B" (clock 11 30) (clock 13 0) in
  checkVenueConflict utcHost (tableStore [A; B]) "hall" (clock 10 0) (clock 12 0) None
  = Resolved {| hasConflict := true;
                conflictingEvents := [A; B];
                suggestedSlots := [slot (clock 13 0) (clock 15 0)] |}.
Proof. reflexivity. Qed.

Example scenario_full_window :
  let A := booking "A" (clock 9 0) (clock 21 0) in
  checkVenueConflict utcHost (tableStore [A]) "hall" (clock 14 0) (clock 15 0) None
  = Resolved {| hasConflict := true; conflictingEvents := [A]; suggestedSlots := [] |}.
Proof. reflexivity. Qed.

Example scenario_excluded_booking :
  checkVenueConflict utcHost (tableStore [bookingA]) "hall" (clock 10 0) (clock 12 0) (Some "A"%string)
  = Resolved noConflict.
Proof. reflexivity. Qed.

Example scenario_sorts_by_start :
  sortByStart [ {| start := 5; end_ := 6 |}; {| start := 1; end_ := 9 |};
                {| start := 5; end_ := 7 |}; {| start := 3; end_ := 4 |} ]
  = [ {| start := 1; end_ := 9 |}; {| start := 3; end_ := 4 |};
      {| start := 5; end_ := 6 |}; {| start := 5; end_ := 7 |} ].
Proof. reflexivity. Qed.

(** ** The conflict detector *)

(** C2. For a request with start < end and fetched bookings each with
    start < end, the four-case condition of the detector agrees with the
    half-open overlap predicate on every booking, and the detector returns
    exactly the bookings that overlap the request, in input order. *)
Theorem checkVenueConflict_returns_overlapping_bookings :
  forall utcOfLocal supabase venueId newStart newEnd excludeEventId existingEvents,
    newStart < newEnd ->
    Forall (fun event => start_time event < end_time event) existingEvents ->
    supabase (buildQuery venueId (isoDate newStart) excludeEventId)
    = Resolved {| data := Some existingEvents; error := None |} ->
    (forall existingStart existingEnd,
        existingStart < existingEnd ->
        timesOverlap newStart newEnd existingStart existingEnd
        = overlaps newStart newEnd existingStart existingEnd)
    /\ exists check,
        checkVenueConflict utcOfLocal supabase venueId newStart newEnd excludeEventId
        = Resolved check
        /\ conflictingEvents check
           = filter (fun event => overlaps newStart newEnd (start_time event) (end_time event))
                    existingEvents.
Proof.
  intros utcOfLocal supabase venueId newStart newEnd excludeEventId existingEvents
         Hrequest Hbookings Hfetch.
  split; [intros; now apply timesOverlap_overlaps|].
  unfold checkVenueConflict. rewrite Hfetch. cbn [await data error].
  rewrite collectConflicts_filter.
  assert (Hsame :
            filter (fun event => timesOverlap newStart newEnd (start_time event) (end_time event))
                   existingEvents
            = filter (fun event => overlaps newStart newEnd (start_time event) (end_time event))
                     existingEvents).
  { apply filter_ext_in. intros event Hin.
    apply timesOverlap_overlaps; [assumption|].
    rewrite Forall_forall in Hbookings. now apply Hbookings. }
  rewrite generateSuggestedSlots_candidates.
  destruct (0 <? length _)%nat; cbn [await]; eexists; (split; [reflexivity|]);
    cbn [conflictingEvents]; exact Hsame.
Qed.

Lemma checkVenueConflict_returns_overlapping_bookings_witness :
  clock 11 0 < clock 13 0
  /\ Forall (fun event => start_time event < end_time event) [bookingA]
  /\ exists check,
      checkVenueConflict utcHost (tableStore [bookingA]) "hall" (clock 11 0) (clock 13 0) None
      = Resolved check
      /\ conflictingEvents check = [bookingA].
Proof.
  assert (Hrequest : clock 11 0 < clock 13 0) by reflexivity.
  assert (Hbookings : Forall (fun event => start_time event < end_time event) [bookingA])
    by (repeat constructor).
  split; [exact Hrequest|]. split; [exact Hbookings|].
  destruct (checkVenueConflict_returns_overlapping_bookings
              utcHost (tableStore [bookingA]) "hall" (clock 11 0) (clock 13 0) None
              [bookingA] Hrequest Hbookings eq_refl) as [_ [check [Hcheck Hconflicts]]].
  exists check. split; [exact Hcheck|]. rewrite Hconflicts. reflexivity.
Defined.

(** C9. The overlap test of the detector is symmetric on intervals with
    start < end: testing A against B gives the same boolean as testing B
    against A. *)
Theorem timesOverlap_symmetric :
  forall aStart aEnd bStart bEnd,
    aStart < aEnd -> bStart < bEnd ->
    timesOverlap aStart aEnd bStart bEnd = timesOverlap bStart bEnd aStart aEnd.
Proof.
  intros aStart aEnd bStart bEnd Ha Hb.
  rewrite !timesOverlap_overlaps by assumption. apply overlaps_sym.
Qed.

Lemma timesOverlap_symmetric_witness :
  clock 9 0 < clock 11 0 /\ clock 10 0 < clock 12 0
  /\ timesOverlap (clock 9 0) (clock 11 0) (clock 10 0) (clock 12 0)
     = timesOverlap (clock 10 0) (clock 12 0) (clock 9 0) (clock 11 0).
Proof.
  split; [reflexivity|]. split; [reflexivity|].
  apply (timesOverlap_symmetric (clock 9 0) (clock 11 0) (clock 10 0) (clock 12 0));
    reflexivity.
Defined.

(** C10. Every successful result of [checkVenueConflict] is consistent:
    [hasConflict] is true exactly when [conflictingEvents] is non-empty,
    and when [hasConflict] is false [suggestedSlots] is empty. *)
Theorem checkVenueConflict_result_consistent :
  forall utcOfLocal supabase venueId startTime endTime excludeEventId check,
    checkVenueConflict utcOfLocal supabase venueId startTime endTime excludeEventId
    = Resolved check ->
    (hasConflict check = true <-> conflictingEvents check <> [])
    /\ (hasConflict check = false -> suggestedSlots check = []).
Proof.
  intros utcOfLocal supabase venueId startTime endTime excludeEventId check.
  unfold checkVenueConflict.
  destruct (supabase _) as [response|reason]; cbn [await]; [|discriminate].
  destruct (error response) as [err|].
  - intros Hcheck.
    assert (check = noConflict) as -> by (unfold noConflict; congruence).
    cbn. split; [split; [discriminate|intros H; now contradiction H]|reflexivity].
  - rewrite generateSuggestedSlots_candidates.
    destruct (0 <? length (collectConflicts _ _ _))%nat eqn:Hany; cbn [await];
      intros Hcheck; apply Resolved_inj in Hcheck; subst check;
      cbn [hasConflict conflictingEvents suggestedSlots].
    + split; [split; [intros _; now apply nonempty_length|reflexivity]|discriminate].
    + split; [split; [discriminate|]|reflexivity].
      intros Hne. apply nonempty_length in Hne. congruence.
Qed.

Lemma checkVenueConflict_result_consistent_witness :
  (checkVenueConflict utcHost (tableStore [bookingA]) "hall" (clock 11 0) (clock 13 0) None
   = Resolved {| hasConflict := true;
                 conflictingEvents := [bookingA];
                 suggestedSlots := [slot (clock 12 0) (clock 14 0)] |}
   /\ conflictingEvents {| hasConflict := true;
                            conflictingEvents := [bookingA];
                            suggestedSlots := [slot (clock 12 0) (clock 14 0)] |} <> [])
  /\ (checkVenueConflict utcHost (tableStore [bookingA]) "hall" (clock 12 0) (clock 13 0) None
      = Resolved noConflict
      /\ suggestedSlots noConflict = []).
Proof.
  split; (split; [reflexivity|]).
  - apply (proj1 (checkVenueConflict_result_consistent
                    utcHost (tableStore [bookingA]) "hall" (clock 11 0) (clock 13 0) None
                    _ eq_refl)).
    reflexivity.
  - apply (proj2 (checkVenueConflict_result_consistent
                    utcHost (tableStore [bookingA]) "hall" (clock 12 0) (clock 13 0) None
                    _ eq_refl)).
    reflexivity.
Defined.

(** ** Failure of the fetch, and requests that are not intervals *)

(** Whatever the request, a fetch that completes with an error object
    gives the result that reports no conflict. *)
Lemma checkVenueConflict_fetch_error utcOfLocal supabase venueId startTime endTime
      excludeEventId rows failure :
  supabase (buildQuery venueId (isoDate startTime) excludeEventId)
  = Resolved {| data := rows; error := Some failure |} ->
  checkVenueConflict utcOfLocal supabase venueId startTime endTime excludeEventId
  = Resolved noConflict.
Proof.
  intros Hfetch. unfold checkVenueConflict. rewrite Hfetch. reflexivity.
Qed.

(** C3, at a failing input.  The fetch completes with an error object;
    [checkVenueConflict] does not reject: it resolves with a result that
    reports no conflict. *)
Lemma checkVenueConflict_fetch_error_not_propagated :
  failingStore "timeout" (buildQuery "hall" (isoDate (clock 11 0)) None)
  = Resolved {| data := None; error := Some {| message := "timeout" |} |}
  /\ checkVenueConflict utcHost (failingStore "timeout") "hall" (clock 11 0) (clock 13 0) None
     = Resolved noConflict
  /\ ~ (exists reason,
          checkVenueConflict utcHost (failingStore "timeout") "hall" (clock 11 0) (clock 13 0) None
          = Rejected reason).
Proof.
  split; [reflexivity|]. split; [reflexivity|].
  intros [reason Hrejected]. discriminate Hrejected.
Qed.





(** ** The slot suggester *)

(** C5. Every slot the suggester returns lasts exactly as long as the
    request: its end minus its start is [requestedEnd - requestedStart]. *)
Theorem generateSuggestedSlots_duration :
  forall utcOfLocal venueId eventDate requestedStart requestedEnd existingEvents,
  exists slots,
    generateSuggestedSlots utcOfLocal venueId eventDate requestedStart requestedEnd existingEvents
    = Resolved slots
    /\ Forall (fun s => slot_end_time s - slot_start_time s = requestedEnd - requestedStart)
              slots.
Proof.
  intros utcOfLocal venueId eventDate requestedStart requestedEnd existingEvents.
  destruct (generateSuggestedSlots utcOfLocal venueId eventDate requestedStart requestedEnd
                                   existingEvents) as [slots|reason] eqn:Hslots.
  - exists slots. split; [reflexivity|]. apply Forall_forall. intros s Hin.
    destruct (generateSuggestedSlots_within _ _ _ _ _ _ _ _ Hslots Hin) as [_ Hcandidate].
    exact (candidateSlots_duration _ _ _ _ _ _ Hcandidate).
  - rewrite generateSuggestedSlots_candidates in Hslots. discriminate Hslots.
Qed.

(** C6. Every slot the suggester returns lies in the working-hours window
    of the day, 09:00 to 21:00; hence when the requested duration exceeds
    the length of the window the result is empty, whatever the bookings. *)
Theorem generateSuggestedSlots_within_window :
  forall utcOfLocal venueId eventDate requestedStart requestedEnd existingEvents,
  exists slots,
    generateSuggestedSlots utcOfLocal venueId eventDate requestedStart requestedEnd existingEvents
    = Resolved slots
    /\ Forall (fun s => dayStartOf utcOfLocal eventDate <= slot_start_time s
                        /\ slot_end_time s <= dayEndOf utcOfLocal eventDate)
              slots
    /\ (dayEndOf utcOfLocal eventDate - dayStartOf utcOfLocal eventDate
        < requestedEnd - requestedStart ->
        slots = []).
Proof.
  intros utcOfLocal venueId eventDate requestedStart requestedEnd existingEvents.
  destruct (generateSuggestedSlots utcOfLocal venueId eventDate requestedStart requestedEnd
                                   existingEvents) as [slots|reason] eqn:Hslots.
  - exists slots. split; [reflexivity|].
    assert (Hall : forall s, In s slots ->
                             (dayStartOf utcOfLocal eventDate <= slot_start_time s
                              /\ slot_end_time s <= dayEndOf utcOfLocal eventDate)
                             /\ slot_end_time s - slot_start_time s
                                = requestedEnd - requestedStart).
    { intros s Hin.
      destruct (generateSuggestedSlots_within _ _ _ _ _ _ _ _ Hslots Hin) as [Hwithin Hcandidate].
      split; [now apply withinWorkingHours_bounds|].
      exact (candidateSlots_duration _ _ _ _ _ _ Hcandidate). }
    split.
    + apply Forall_forall. intros s Hin. now apply Hall.
    + intros Hlong. destruct slots as [|s rest]; [reflexivity|].
      destruct (Hall s (or_introl eq_refl)) as [[Hfrom Hto] Hduration]. lia.
  - rewrite generateSuggestedSlots_candidates in Hslots. discriminate Hslots.
Qed.

Lemma generateSuggestedSlots_within_window_witness :
  dayEndOf utcHost aDay - dayStartOf utcHost aDay < clock 21 30 - clock 8 30
  /\ generateSuggestedSlots utcHost "hall" aDay (clock 8 30) (clock 21 30) [bookingA]
     = Resolved [].
Proof.
  assert (Hlong : dayEndOf utcHost aDay - dayStartOf utcHost aDay < clock 21 30 - clock 8 30)
    by reflexivity.
  split; [exact Hlong|].
  destruct (generateSuggestedSlots_within_window
              utcHost "hall" aDay (clock 8 30) (clock 21 30) [bookingA])
    as [slots [Hslots [_ Hempty]]].
  rewrite Hslots, (Hempty Hlong). reflexivity.
Defined.

(** C7. The suggester returns at most [maxSuggestions] = 3 slots: the
    first three of the candidates that lie in the window, taken in
    priority order (before the first booking, then each gap between
    adjacent bookings in order, then after the last booking); the rest
    are dropped. *)
Theorem generateSuggestedSlots_bounded :
  forall utcOfLocal venueId eventDate requestedStart requestedEnd existingEvents,
  exists slots,
    generateSuggestedSlots utcOfLocal venueId eventDate requestedStart requestedEnd existingEvents
    = Resolved slots
    /\ (length slots <= maxSuggestions)%nat
    /\ slots
       = firstn maxSuggestions
           (filter (withinWorkingHours (dayStartOf utcOfLocal eventDate)
                                       (dayEndOf utcOfLocal eventDate))
              (candidateSlots (dayStartOf utcOfLocal eventDate) (dayEndOf utcOfLocal eventDate)
                 requestedStart requestedEnd (sortByStart (map toSpan existingEvents)))).
Proof.
  intros utcOfLocal venueId eventDate requestedStart requestedEnd existingEvents.
  rewrite generateSuggestedSlots_candidates. eexists. split; [reflexivity|].
  split; [apply firstn_le_length|reflexivity].
Qed.

(** C8. With no existing booking and a request with start < end, the
    suggester returns exactly the opening slot of the window, of the
    requested duration, when the request lies in the window, and nothing
    otherwise. *)
Theorem generateSuggestedSlots_no_bookings :
  forall utcOfLocal venueId eventDate requestedStart requestedEnd,
    requestedStart < requestedEnd ->
    (dayStartOf utcOfLocal eventDate <= requestedStart
     /\ requestedEnd <= dayEndOf utcOfLocal eventDate ->
     generateSuggestedSlots utcOfLocal venueId eventDate requestedStart requestedEnd []
     = Resolved [slot (dayStartOf utcOfLocal eventDate)
                      (dayStartOf utcOfLocal eventDate + (requestedEnd - requestedStart))])
    /\ (~ (dayStartOf utcOfLocal eventDate <= requestedStart
           /\ requestedEnd <= dayEndOf utcOfLocal eventDate) ->
        generateSuggestedSlots utcOfLocal venueId eventDate requestedStart requestedEnd []
        = Resolved []).
Proof.
  intros utcOfLocal venueId eventDate requestedStart requestedEnd Hrequest.
  rewrite generateSuggestedSlots_candidates.
  cbn [map sortByStart fold_right candidateSlots beforeFirstSlot betweenSlots
       afterLastSlot lastBooking openingSlot app].
  set (dayStart := dayStartOf utcOfLocal eventDate).
  set (dayEnd := dayEndOf utcOfLocal eventDate).
  split.
  - intros [Hfrom Hto].
    replace ((dayStart <=? requestedStart) && (requestedEnd <=? dayEnd)) with true
      by (symmetry; apply andb_true_iff; split; apply Z.leb_le; assumption).
    cbn [filter]. unfold withinWorkingHours, slot. cbn [slot_start_time slot_end_time].
    replace ((dayStart >=? dayStart)
             && (dayStart + (requestedEnd - requestedStart) <=? dayEnd)) with true
      by (symmetry; rewrite Z.geb_leb; apply andb_true_iff; split; apply Z.leb_le; lia).
    reflexivity.
  - intros Houtside.
    replace ((dayStart <=? requestedStart) && (requestedEnd <=? dayEnd)) with false;
      [reflexivity|].
    symmetry. apply andb_false_iff.
    destruct (Z.leb_spec dayStart requestedStart); [|now left].
    destruct (Z.leb_spec requestedEnd dayEnd); [|now right].
    exfalso. apply Houtside. split; assumption.
Qed.

Lemma generateSuggestedSlots_no_bookings_witness :
  (clock 10 0 < clock 12 0
   /\ generateSuggestedSlots utcHost "hall" aDay (clock 10 0) (clock 12 0) []
      = Resolved [slot (clock 9 0) (clock 11 0)])
  /\ (clock 8 0 < clock 10 0
      /\ generateSuggestedSlots utcHost "hall" aDay (clock 8 0) (clock 10 0) []
         = Resolved []).
Proof.
  split; (split; [reflexivity|]).
  - apply (proj1 (generateSuggestedSlots_no_bookings
                    utcHost "hall" aDay (clock 10 0) (clock 12 0) eq_refl)).
    split; discriminate.
  - apply (proj2 (generateSuggestedSlots_no_bookings
                    utcHost "hall" aDay (clock 8 0) (clock 10 0) eq_refl)).
    intros [Hfrom _]. apply Hfrom. reflexivity.
Defined.

(** ** Overlapping bookings *)

(** C1, at a failing input.  With a booking 09:00-18:00 and a booking
    10:00-11:00 inside it, the slot after the last-starting booking,
    11:00-12:00, is returned for a one-hour request although it overlaps
    the first booking. *)
Theorem generateSuggestedSlots_offers_booked_time :
  generateSuggestedSlots utcHost "hall" aDay (clock 10 30) (clock 11 30)
                         [longBooking; shortBooking]
  = Resolved [slot (clock 11 0) (clock 12 0)]
  /\ slotOverlaps (slot (clock 11 0) (clock 12 0)) longBooking = true.
Proof. split; reflexivity. Qed.

(** The same input, reached through the detector: the request conflicts
    with both bookings and is offered the booked hour. *)
Example scenario_nested_bookings :
  checkVenueConflict utcHost (tableStore [longBooking; shortBooking]) "hall"
                     (clock 10 30) (clock 11 30) None
  = Resolved {| hasConflict := true;
                conflictingEvents := [longBooking; shortBooking];
                suggestedSlots := [slot (clock 11 0) (clock 12 0)] |}.
Proof. reflexivity. Qed.

(** ** Bookings that do not overlap one another *)

Lemma overlaps_false aStart aEnd bStart bEnd :
  overlaps aStart aEnd bStart bEnd = false <-> bEnd <= aStart \/ aEnd <= bStart.
Proof.
  unfold overlaps. rewrite andb_false_iff, !Z.ltb_ge. tauto.
Qed.

(** *** Sorting bookings that do not overlap chains them *)

Lemma insertByStart_In x l z : In z (insertByStart x l) <-> z = x \/ In z l.
Proof.
  induction l as [|y l IH]; simpl.
  - intuition congruence.
  - destruct (start x <=? start y); simpl; [intuition congruence|].
    rewrite IH. intuition congruence.
Qed.

Lemma sortByStart_In l z : In z (sortByStart l) <-> In z l.
Proof.
  induction l as [|x l IH]; simpl; [tauto|].
  rewrite insertByStart_In, IH. intuition congruence.
Qed.

Lemma insertByStart_chain x l :
  positiveSpan x -> Forall positiveSpan l -> Forall (disjointSpans x) l ->
  StronglySorted precedes l -> StronglySorted precedes (insertByStart x l).
Proof.
  intros Hx Hl Hdisjoint Hsorted.
  induction Hsorted as [|y l Hsorted IH Hy]; simpl.
  - repeat constructor.
  - inversion Hl as [|? ? Hpy Hpl]; subst.
    inversion Hdisjoint as [|? ? Hxy Hxl]; subst.
    apply overlaps_false in Hxy. unfold positiveSpan in *.
    destruct (Z.leb_spec (start x) (start y)) as [Hle|Hgt].
    + constructor; [now constructor|].
      assert (Hxy' : precedes x y) by (unfold precedes; lia).
      constructor; [exact Hxy'|].
      rewrite Forall_forall in *. intros z Hz.
      specialize (Hy z Hz). unfold precedes in *. lia.
    + constructor; [now apply IH|].
      apply Forall_forall. intros z Hz. apply insertByStart_In in Hz.
      destruct Hz as [->|Hz]; [unfold precedes; lia|].
      rewrite Forall_forall in Hy. now apply Hy.
Qed.

Lemma sortByStart_chain events :
  Forall (fun event => start_time event < end_time event) events ->
  ForallOrdPairs disjointEvents events ->
  StronglySorted precedes (sortByStart (map toSpan events))
  /\ Forall positiveSpan (sortByStart (map toSpan events)).
Proof.
  intros Hpositive Hpairs.
  induction Hpairs as [|event events Hevent Hpairs IH]; simpl.
  - split; constructor.
  - inversion Hpositive as [|? ? Hp Hps]; subst.
    destruct (IH Hps) as [Hsorted Hall].
    split.
    + apply insertByStart_chain; try assumption.
      apply Forall_forall. intros z Hz.
      apply sortByStart_In, in_map_iff in Hz. destruct Hz as [other [<- Hother]].
      rewrite Forall_forall in Hevent. exact (Hevent other Hother).
    + apply Forall_forall. intros z Hz. apply insertByStart_In in Hz.
      destruct Hz as [->|Hz]; [exact Hp|].
      rewrite Forall_forall in Hall. now apply Hall.
Qed.

(** *** Candidates of chained bookings are free *)

Lemma betweenSlots_cons duration current next rest :
  betweenSlots duration (current :: next :: rest)
  = (if duration <=? start next - end_ current
     then [slot (end_ current) (end_ current + duration)]
     else [])
    ++ betweenSlots duration (next :: rest).
Proof. reflexivity. Qed.

Lemma betweenSlots_start duration bookings s :
  In s (betweenSlots duration bookings) ->
  exists b, In b bookings /\ slot_start_time s = end_ b.
Proof.
  induction bookings as [|current rest IH]; [contradiction|].
  destruct rest as [|next rest]; [contradiction|].
  rewrite betweenSlots_cons, in_app_iff. intros [H|H].
  - destruct (_ <=? _); [|contradiction]. destruct H as [<-|[]].
    exists current. split; [now left|reflexivity].
  - destruct (IH H) as [b [Hb Hs]]. exists b. split; [now right|exact Hs].
Qed.

Lemma betweenSlots_free duration bookings s :
  StronglySorted precedes bookings -> Forall positiveSpan bookings ->
  In s (betweenSlots duration bookings) -> freeOf bookings s.
Proof.
  intros Hsorted. induction Hsorted as [|current rest Hsorted IH Hcurrent]; [contradiction|].
  intros Hpositive Hin. inversion Hpositive as [|? ? Hp Hps]; subst.
  destruct rest as [|next rest]; [contradiction|].
  rewrite betweenSlots_cons, in_app_iff in Hin.
  unfold freeOf. destruct Hin as [Hin|Hin].
  - destruct (Z.leb_spec duration (start next - end_ current)) as [Hfits|]; [|contradiction].
    destruct Hin as [<-|[]]. unfold slot. cbn [slot_start_time slot_end_time].
    constructor; [apply overlaps_false; lia|].
    inversion Hsorted as [|? ? _ Hnext]; subst.
    constructor; [apply overlaps_false; lia|].
    rewrite Forall_forall in *. intros z Hz. apply overlaps_false.
    specialize (Hnext z Hz). unfold precedes in Hnext. lia.
  - constructor; [|now apply IH].
    destruct (betweenSlots_start _ _ _ Hin) as [b [Hb Hs]].
    rewrite Forall_forall in Hcurrent, Hps.
    specialize (Hcurrent b Hb). specialize (Hps b Hb).
    unfold precedes, positiveSpan in *. apply overlaps_false. lia.
Qed.

Lemma lastBooking_latest bookings final :
  StronglySorted precedes bookings -> Forall positiveSpan bookings ->
  lastBooking bookings = Some final ->
  Forall (fun b => end_ b <= end_ final) bookings.
Proof.
  intros Hsorted. induction Hsorted as [|b rest Hsorted IH Hb]; [discriminate|].
  intros Hpositive Hlast. inversion Hpositive as [|? ? Hp Hps]; subst.
  destruct rest as [|b' rest].
  - injection Hlast as <-. constructor; [lia|constructor].
  - change (lastBooking (b :: b' :: rest)) with (lastBooking (b' :: rest)) in Hlast.
    specialize (IH Hps Hlast). constructor; [|exact IH].
    inversion IH as [|? ? Hb' _]; subst.
    inversion Hb as [|? ? Hbb' _]; subst.
    inversion Hps as [|? ? Hp' _]; subst.
    unfold precedes, positiveSpan in *. lia.
Qed.

Lemma candidateSlots_free windowStart windowEnd requestStart requestEnd bookings s :
  StronglySorted precedes bookings -> Forall positiveSpan bookings ->
  In s (candidateSlots windowStart windowEnd requestStart requestEnd bookings) ->
  freeOf bookings s.
Proof.
  intros Hsorted Hpositive. unfold candidateSlots. rewrite !in_app_iff.
  intros [H|[H|[H|H]]].
  - unfold beforeFirstSlot in H. destruct bookings as [|firstBooking rest]; [contradiction|].
    destruct (Z.leb_spec (windowStart + (requestEnd - requestStart)) (start firstBooking));
      [|contradiction].
    destruct H as [<-|[]]. unfold freeOf, slot. cbn [slot_start_time slot_end_time].
    inversion Hsorted as [|? ? _ Hfirst]; subst.
    constructor; [apply overlaps_false; lia|].
    rewrite Forall_forall in *. intros z Hz. apply overlaps_false.
    specialize (Hfirst z Hz). unfold precedes in Hfirst. lia.
  - now apply (betweenSlots_free (requestEnd - requestStart)).
  - unfold afterLastSlot in H.
    destruct (lastBooking bookings) as [final|] eqn:Hlast; [|contradiction].
    destruct (_ <=? _); [|contradiction]. destruct H as [<-|[]].
    pose proof (lastBooking_latest _ _ Hsorted Hpositive Hlast) as Hlatest.
    unfold freeOf, slot. cbn [slot_start_time slot_end_time].
    rewrite Forall_forall in *. intros z Hz. apply overlaps_false.
    specialize (Hlatest z Hz). lia.
  - unfold openingSlot in H. destruct bookings; [constructor|contradiction].
Qed.

(** X1. When the bookings are intervals no two of which overlap, the
    defect shown above cannot occur: every slot the suggester returns
    overlaps no booking. *)
Theorem generateSuggestedSlots_free_of_disjoint_bookings :
  forall utcOfLocal venueId eventDate requestedStart requestedEnd existingEvents,
    Forall (fun event => start_time event < end_time event) existingEvents ->
    ForallOrdPairs disjointEvents existingEvents ->
    exists slots,
      generateSuggestedSlots utcOfLocal venueId eventDate requestedStart requestedEnd
                             existingEvents
      = Resolved slots
      /\ Forall (fun s => Forall (fun event => slotOverlaps s event = false) existingEvents)
                slots.
Proof.
  intros utcOfLocal venueId eventDate requestedStart requestedEnd existingEvents
         Hpositive Hpairs.
  destruct (sortByStart_chain existingEvents Hpositive Hpairs) as [Hsorted Hall].
  destruct (generateSuggestedSlots utcOfLocal venueId eventDate requestedStart requestedEnd
                                   existingEvents) as [slots|reason] eqn:Hslots.
  - exists slots. split; [reflexivity|]. apply Forall_forall. intros s Hin.
    destruct (generateSuggestedSlots_within _ _ _ _ _ _ _ _ Hslots Hin) as [_ Hcandidate].
    pose proof (candidateSlots_free _ _ _ _ _ _ Hsorted Hall Hcandidate) as Hfree.
    unfold freeOf in Hfree. rewrite Forall_forall in Hfree.
    apply Forall_forall. intros event Hevent.
    apply (Hfree (toSpan event)).
    apply sortByStart_In, in_map. exact Hevent.
  - rewrite generateSuggestedSlots_candidates in Hslots. discriminate Hslots.
Qed.

Lemma generateSuggestedSlots_free_of_disjoint_bookings_witness :
  Forall (fun event => start_time event < end_time event) [bookingA; bookingB]
  /\ ForallOrdPairs disjointEvents [bookingA; bookingB]
  /\ exists slots,
      generateSuggestedSlots utcHost "hall" aDay (clock 11 0) (clock 13 0) [bookingA; bookingB]
      = Resolved slots
      /\ Forall (fun s => Forall (fun event => slotOverlaps s event = false)
                               [bookingA; bookingB])
                slots.
Proof.
  assert (Hpositive : Forall (fun event => start_time event < end_time event)
                             [bookingA; bookingB])
    by (repeat constructor).
  assert (Hpairs : ForallOrdPairs disjointEvents [bookingA; bookingB])
    by (repeat constructor).
  split; [exact Hpositive|]. split; [exact Hpairs|].
  exact (generateSuggestedSlots_free_of_disjoint_bookings
           utcHost "hall" aDay (clock 11 0) (clock 13 0) [bookingA; bookingB]
           Hpositive Hpairs).
Defined.

Example scenario_two_disjoint_bookings :
  generateSuggestedSlots utcHost "hall" aDay (clock 11 0) (clock 13 0) [bookingA; bookingB]
  = Resolved [slot (clock 14 0) (clock 16 0)].
Proof. reflexivity. Qed.

(** ** The order of the suggestions *)

Lemma insertByStart_sorted x l :
  StronglySorted (fun a b => start a <= start b) l ->
  StronglySorted (fun a b => start a <= start b) (insertByStart x l).
Proof.
  intros Hsorted. induction Hsorted as [|y l Hsorted IH Hy]; simpl.
  - repeat constructor.
  - destruct (Z.leb_spec (start x) (start y)) as [Hle|Hgt].
    + constructor; [now constructor|].
      constructor; [exact Hle|].
      rewrite Forall_forall in *. intros z Hz. specialize (Hy z Hz). lia.
    + constructor; [exact IH|].
      apply Forall_forall. intros z Hz. apply insertByStart_In in Hz.
      destruct Hz as [->|Hz]; [lia|].
      rewrite Forall_forall in Hy. now apply Hy.
Qed.

Lemma sortByStart_sorted l :
  StronglySorted (fun a b => start a <= start b) (sortByStart l).
Proof.
  induction l as [|x l IH]; simpl; [constructor|now apply insertByStart_sorted].
Qed.

Lemma afterLastSlot_cons windowEnd duration current next rest :
  afterLastSlot windowEnd duration (current :: next :: rest)
  = afterLastSlot windowEnd duration (next :: rest).
Proof. reflexivity. Qed.

Lemma StronglySorted_app_single {A : Type} (R : A -> A -> Prop) (x : A) (l : list A) :
  Forall (R x) l -> StronglySorted R l -> StronglySorted R ([x] ++ l).
Proof. intros. now constructor. Qed.

(** The slots after the gaps of a sorted list begin after its first
    booking begins. *)
Lemma laterSlots_sorted windowEnd duration bookings :
  StronglySorted (fun a b => start a <= start b) bookings ->
  Forall positiveSpan bookings ->
  StronglySorted slotBefore
    (betweenSlots duration bookings ++ afterLastSlot windowEnd duration bookings)
  /\ forall s firstBooking,
      In s (betweenSlots duration bookings ++ afterLastSlot windowEnd duration bookings) ->
      hd_error bookings = Some firstBooking ->
      start firstBooking < slot_start_time s.
Proof.
  intros Hsorted. induction Hsorted as [|current rest Hsorted IH Hcurrent]; intros Hpositive.
  - split; [constructor|intros ? ? []].
  - inversion Hpositive as [|? ? Hp Hps]; subst. unfold positiveSpan in Hp.
    destruct rest as [|next rest].
    + cbn [betweenSlots app]. unfold afterLastSlot. cbn [lastBooking].
      destruct (_ <=? _).
      * split; [repeat constructor|].
        intros s firstBooking [<-|[]] [= <-]. unfold slot. cbn. exact Hp.
      * split; [constructor|intros ? ? []].
    + destruct (IH Hps) as [IHsorted IHafter].
      rewrite betweenSlots_cons, afterLastSlot_cons, <- app_assoc.
      inversion Hcurrent as [|? ? Hcn _]; subst.
      assert (Hlater : forall s,
                 In s (betweenSlots duration (next :: rest)
                         ++ afterLastSlot windowEnd duration (next :: rest)) ->
                 start next < slot_start_time s)
        by (intros s Hs; now apply (IHafter s next)).
      split.
      * destruct (Z.leb_spec duration (start next - end_ current)) as [Hfits|].
        -- apply StronglySorted_app_single; [|exact IHsorted].
           apply Forall_forall. intros s Hs. specialize (Hlater s Hs).
           unfold slotBefore, slot. cbn [slot_end_time]. lia.
        -- exact IHsorted.
      * intros s firstBooking Hs [= <-]. apply in_app_iff in Hs. destruct Hs as [Hs|Hs].
        -- destruct (_ <=? _); [|contradiction]. destruct Hs as [<-|[]].
           unfold slot. cbn. exact Hp.
        -- specialize (Hlater s Hs). lia.
Qed.

Lemma candidateSlots_sorted windowStart windowEnd requestStart requestEnd bookings :
  StronglySorted (fun a b => start a <= start b) bookings ->
  Forall positiveSpan bookings ->
  StronglySorted slotBefore
    (candidateSlots windowStart windowEnd requestStart requestEnd bookings).
Proof.
  intros Hsorted Hpositive. unfold candidateSlots.
  destruct bookings as [|firstBooking rest].
  - cbn [beforeFirstSlot betweenSlots afterLastSlot lastBooking openingSlot app].
    destruct (_ && _); repeat constructor.
  - cbn [openingSlot]. rewrite app_nil_r.
    destruct (laterSlots_sorted windowEnd (requestEnd - requestStart) _ Hsorted Hpositive)
      as [Hlater Hafter].
    unfold beforeFirstSlot.
    destruct (Z.leb_spec (windowStart + (requestEnd - requestStart)) (start firstBooking));
      [|exact Hlater].
    apply StronglySorted_app_single; [|exact Hlater].
    apply Forall_forall. intros s Hs. specialize (Hafter s firstBooking Hs eq_refl).
    unfold slotBefore, slot. cbn [slot_end_time]. lia.
Qed.

Lemma StronglySorted_filter {A : Type} (R : A -> A -> Prop) (keep : A -> bool) (l : list A) :
  StronglySorted R l -> StronglySorted R (filter keep l).
Proof.
  intros Hsorted. induction Hsorted as [|x l Hsorted IH Hx]; simpl; [constructor|].
  destruct (keep x); [|exact IH].
  constructor; [exact IH|].
  rewrite Forall_forall in *. intros y Hy. apply filter_In in Hy. now apply Hx.
Qed.

Lemma StronglySorted_firstn {A : Type} (R : A -> A -> Prop) (n : nat) (l : list A) :
  StronglySorted R l -> StronglySorted R (firstn n l).
Proof.
  intros Hsorted. revert n. induction Hsorted as [|x l Hsorted IH Hx]; intros [|n]; simpl;
    try constructor.
  - apply IH.
  - rewrite Forall_forall in *. intros y Hy. apply firstn_In in Hy. now apply Hx.
Qed.

(** X2. When every booking has start < end, the slots the suggester
    returns are in chronological order and apart from one another: each
    has ended before the next begins. *)
Theorem generateSuggestedSlots_chronological :
  forall utcOfLocal venueId eventDate requestedStart requestedEnd existingEvents,
    Forall (fun event => start_time event < end_time event) existingEvents ->
    exists slots,
      generateSuggestedSlots utcOfLocal venueId eventDate requestedStart requestedEnd
                             existingEvents
      = Resolved slots
      /\ StronglySorted (fun s t => slot_end_time s < slot_start_time t) slots.
Proof.
  intros utcOfLocal venueId eventDate requestedStart requestedEnd existingEvents Hpositive.
  rewrite generateSuggestedSlots_candidates. eexists. split; [reflexivity|].
  apply StronglySorted_firstn, StronglySorted_filter.
  apply (candidateSlots_sorted _ _ _ _ _ (sortByStart_sorted _)).
  apply Forall_forall. intros b Hb.
  apply sortByStart_In, in_map_iff in Hb. destruct Hb as [event [<- Hevent]].
  rewrite Forall_forall in Hpositive. exact (Hpositive event Hevent).
Qed.

Lemma generateSuggestedSlots_chronological_witness :
  Forall (fun event => start_time event < end_time event) [bookingB; bookingA]
  /\ exists slots,
      generateSuggestedSlots utcHost "hall" aDay (clock 10 30) (clock 11 30)
                             [bookingB; bookingA]
      = Resolved slots
      /\ StronglySorted (fun s t => slot_end_time s < slot_start_time t) slots.
Proof.
  assert (Hpositive : Forall (fun event => start_time event < end_time event)
                             [bookingB; bookingA])
    by (repeat constructor).
  split; [exact Hpositive|].
  exact (generateSuggestedSlots_chronological
           utcHost "hall" aDay (clock 10 30) (clock 11 30) [bookingB; bookingA] Hpositive).
Defined.

Example scenario_three_suggestions :
  generateSuggestedSlots utcHost "hall" aDay (clock 10 30) (clock 11 30) [bookingB; bookingA]
  = Resolved [slot (clock 9 0) (clock 10 0);
              slot (clock 12 0) (clock 13 0);
              slot (clock 14 0) (clock 15 0)].
Proof. reflexivity. Qed.

(** *** Sorting does not depend on the order of rows with distinct starts *)

Lemma insertByStart_comm x y l :
  start x <> start y ->
  insertByStart x (insertByStart y l) = insertByStart y (insertByStart x l).
Proof.
  intros Hxy. induction l as [|z l IH]; simpl.
  - destruct (Z.leb_spec (start x) (start y)), (Z.leb_spec (start y) (start x));
      try reflexivity; lia.
  - destruct (Z.leb_spec (start x) (start z)) as [Hxz|Hxz],
             (Z.leb_spec (start y) (start z)) as [Hyz|Hyz]; simpl.
    + destruct (Z.leb_spec (start x) (start y)), (Z.leb_spec (start y) (start x));
        simpl; try lia.
      * destruct (Z.leb_spec (start y) (start z)); [reflexivity|lia].
      * destruct (Z.leb_spec (start x) (start z)); [reflexivity|lia].
    + destruct (Z.leb_spec (start x) (start z)); [|lia].
      destruct (Z.leb_spec (start y) (start x)); [lia|].
      simpl. destruct (Z.leb_spec (start y) (start z)); [lia|reflexivity].
    + destruct (Z.leb_spec (start y) (start z)); [|lia].
      destruct (Z.leb_spec (start x) (start y)); [lia|].
      simpl. destruct (Z.leb_spec (start x) (start z)); [lia|reflexivity].
    + destruct (Z.leb_spec (start x) (start z)); [lia|].
      destruct (Z.leb_spec (start y) (start z)); [lia|].
      now rewrite IH.
Qed.

Lemma sortByStart_permutation l l' :
  Permutation l l' -> NoDup (map start l) -> sortByStart l = sortByStart l'.
Proof.
  intros Hperm. induction Hperm as [|x l l' Hperm IH|x y l|l l' l'' H1 IH1 H2 IH2];
    intros Hdistinct.
  - reflexivity.
  - simpl. inversion Hdistinct; subst. now rewrite IH.
  - simpl. apply insertByStart_comm.
    inversion Hdistinct as [|? ? Hy _]; subst. simpl in Hy. intros Heq. apply Hy. now left.
  - rewrite IH1 by assumption. apply IH2.
    eapply Permutation_NoDup; [|exact Hdistinct]. now apply Permutation_map.
Qed.

(** X3. The query asks for no order.  When the fetched bookings have
    distinct start times, the suggestions do not depend on the order in
    which the rows arrive. *)
Theorem generateSuggestedSlots_row_order_irrelevant :
  forall utcOfLocal venueId eventDate requestedStart requestedEnd existingEvents reordered,
    Permutation existingEvents reordered ->
    NoDup (map start_time existingEvents) ->
    generateSuggestedSlots utcOfLocal venueId eventDate requestedStart requestedEnd reordered
    = generateSuggestedSlots utcOfLocal venueId eventDate requestedStart requestedEnd
                             existingEvents.
Proof.
  intros utcOfLocal venueId eventDate requestedStart requestedEnd existingEvents reordered
         Hperm Hdistinct.
  rewrite !generateSuggestedSlots_candidates.
  rewrite (sortByStart_permutation (map toSpan existingEvents) (map toSpan reordered)).
  - reflexivity.
  - now apply Permutation_map.
  - rewrite map_map. exact Hdistinct.
Qed.

Lemma generateSuggestedSlots_row_order_irrelevant_witness :
  Permutation [bookingA; bookingB] [bookingB; bookingA]
  /\ NoDup (map start_time [bookingA; bookingB])
  /\ generateSuggestedSlots utcHost "hall" aDay (clock 10 30) (clock 11 30)
                            [bookingB; bookingA]
     = generateSuggestedSlots utcHost "hall" aDay (clock 10 30) (clock 11 30)
                              [bookingA; bookingB].
Proof.
  assert (Hperm : Permutation [bookingA; bookingB] [bookingB; bookingA])
    by apply perm_swap.
  assert (Hdistinct : NoDup (map start_time [bookingA; bookingB])).
  { repeat constructor; simpl; intros H; repeat destruct H as [H|H]; try discriminate H;
      exact H. }
  split; [exact Hperm|]. split; [exact Hdistinct|].
  exact (generateSuggestedSlots_row_order_irrelevant
           utcHost "hall" aDay (clock 10 30) (clock 11 30) _ _ Hperm Hdistinct).
Defined.

(** ** Bookings inside working hours *)

Lemma betweenSlots_bounds duration bookings s :
  In s (betweenSlots duration bookings) ->
  exists b b', In b bookings /\ In b' bookings
               /\ slot_start_time s = end_ b /\ slot_end_time s <= start b'.
Proof.
  induction bookings as [|current rest IH]; [contradiction|].
  destruct rest as [|next rest]; [contradiction|].
  rewrite betweenSlots_cons, in_app_iff. intros [H|H].
  - destruct (Z.leb_spec duration (start next - end_ current)); [|contradiction].
    destruct H as [<-|[]]. exists current, next. unfold slot. cbn.
    repeat split; auto; lia.
  - destruct (IH H) as (b & b' & Hb & Hb' & Hs & He).
    exists b, b'. repeat split; auto; now right.
Qed.

Lemma lastBooking_In bookings final : lastBooking bookings = Some final -> In final bookings.
Proof.
  induction bookings as [|b rest IH]; [discriminate|].
  destruct rest as [|b' rest].
  - intros [= <-]. now left.
  - intros H. right. now apply IH.
Qed.

Lemma candidateSlots_within windowStart windowEnd requestStart requestEnd bookings s :
  Forall (fun b => start b < end_ b /\ windowStart <= start b /\ end_ b <= windowEnd)
         bookings ->
  In s (candidateSlots windowStart windowEnd requestStart requestEnd bookings) ->
  withinWorkingHours windowStart windowEnd s = true.
Proof.
  intros Hinside. rewrite Forall_forall in Hinside.
  unfold candidateSlots. rewrite !in_app_iff.
  intros Hin. apply withinWorkingHours_bounds.
  destruct Hin as [H|[H|[H|H]]].
  - unfold beforeFirstSlot in H. destruct bookings as [|firstBooking rest]; [contradiction|].
    destruct (Z.leb_spec (windowStart + (requestEnd - requestStart)) (start firstBooking));
      [|contradiction].
    destruct H as [<-|[]]. unfold slot. cbn.
    specialize (Hinside firstBooking (or_introl eq_refl)). lia.
  - destruct (betweenSlots_bounds _ _ _ H) as (b & b' & Hb & Hb' & Hs & He).
    pose proof (Hinside b Hb). pose proof (Hinside b' Hb'). lia.
  - unfold afterLastSlot in H.
    destruct (lastBooking bookings) as [final|] eqn:Hlast; [|contradiction].
    destruct (Z.leb_spec (end_ final + (requestEnd - requestStart)) windowEnd);
      [|contradiction].
    destruct H as [<-|[]]. unfold slot. cbn.
    pose proof (Hinside final (lastBooking_In _ _ Hlast)). lia.
  - unfold openingSlot in H. destruct bookings; [|contradiction].
    destruct (Z.leb_spec windowStart requestStart), (Z.leb_spec requestEnd windowEnd);
      cbn in H; try contradiction.
    destruct H as [<-|[]]. unfold slot. cbn. lia.
Qed.

Lemma filter_all {A : Type} (keep : A -> bool) (l : list A) :
  (forall x, In x l -> keep x = true) -> filter keep l = l.
Proof.
  induction l as [|x l IH]; intros Hall; simpl; [reflexivity|].
  rewrite (Hall x (or_introl eq_refl)). f_equal. apply IH. intros y Hy. apply Hall. now right.
Qed.

(** X4. When every booking has start < end and lies inside the
    working hours of the day, the final filter removes nothing: the
    result is the first three candidates. *)
Theorem generateSuggestedSlots_keeps_candidates :
  forall utcOfLocal venueId eventDate requestedStart requestedEnd existingEvents,
    Forall (fun event =>
              start_time event < end_time event
              /\ dayStartOf utcOfLocal eventDate <= start_time event
              /\ end_time event <= dayEndOf utcOfLocal eventDate) existingEvents ->
    generateSuggestedSlots utcOfLocal venueId eventDate requestedStart requestedEnd
                           existingEvents
    = Resolved
        (firstn 3
           (candidateSlots (dayStartOf utcOfLocal eventDate) (dayEndOf utcOfLocal eventDate)
              requestedStart requestedEnd (sortByStart (map toSpan existingEvents)))).
Proof.
  intros utcOfLocal venueId eventDate requestedStart requestedEnd existingEvents Hinside.
  rewrite generateSuggestedSlots_candidates. f_equal. f_equal.
  apply filter_all. intros s Hs.
  refine (candidateSlots_within _ _ _ _ _ _ _ Hs).
  apply Forall_forall. intros b Hb.
  apply sortByStart_In, in_map_iff in Hb. destruct Hb as [event [<- Hevent]].
  rewrite Forall_forall in Hinside. exact (Hinside event Hevent).
Qed.

Lemma generateSuggestedSlots_keeps_candidates_witness :
  Forall (fun event =>
            start_time event < end_time event
            /\ dayStartOf utcHost aDay <= start_time event
            /\ end_time event <= dayEndOf utcHost aDay) [bookingA; bookingB]
  /\ generateSuggestedSlots utcHost "hall" aDay (clock 11 0) (clock 13 0) [bookingA; bookingB]
     = Resolved
         (firstn 3
            (candidateSlots (dayStartOf utcHost aDay) (dayEndOf utcHost aDay)
               (clock 11 0) (clock 13 0) (sortByStart (map toSpan [bookingA; bookingB])))).
Proof.
  assert (Hinside : Forall (fun event =>
                              start_time event < end_time event
                              /\ dayStartOf utcHost aDay <= start_time event
                              /\ end_time event <= dayEndOf utcHost aDay)
                           [bookingA; bookingB]).
  { repeat constructor; vm_compute; discriminate. }
  split; [exact Hinside|].
  exact (generateSuggestedSlots_keeps_candidates
           utcHost "hall" aDay (clock 11 0) (clock 13 0) [bookingA; bookingB] Hinside).
Defined.

(** ** Taking a suggestion *)

Lemma isoDate_in_day day t :
  day * msPerDay <= t -> t < (day + 1) * msPerDay -> isoDate t = day.
Proof.
  unfold isoDate, msPerDay. intros Hfrom Hto.
  symmetry. apply (Z.div_unique_pos t 86400000 day (t - 86400000 * day)); lia.
Qed.

(** A slot returned for bookings that are intervals no two of which
    overlap is free of them. *)
Lemma generateSuggestedSlots_slot_free utcOfLocal venueId eventDate
      requestedStart requestedEnd existingEvents slots s :
  Forall (fun event => start_time event < end_time event) existingEvents ->
  ForallOrdPairs disjointEvents existingEvents ->
  generateSuggestedSlots utcOfLocal venueId eventDate requestedStart requestedEnd existingEvents
  = Resolved slots ->
  In s slots ->
  Forall (fun event => slotOverlaps s event = false) existingEvents.
Proof.
  intros Hpositive Hpairs Hslots Hin.
  destruct (sortByStart_chain existingEvents Hpositive Hpairs) as [Hsorted Hall].
  destruct (generateSuggestedSlots_within _ _ _ _ _ _ _ _ Hslots Hin) as [_ Hcandidate].
  pose proof (candidateSlots_free _ _ _ _ _ _ Hsorted Hall Hcandidate) as Hfree.
  unfold freeOf in Hfree. rewrite Forall_forall in Hfree.
  apply Forall_forall. intros event Hevent.
  apply (Hfree (toSpan event)).
  apply sortByStart_In, in_map. exact Hevent.
Qed.

Lemma collectConflicts_none newStart newEnd events :
  newStart < newEnd ->
  Forall (fun event => start_time event < end_time event) events ->
  Forall (fun event =>
            overlaps newStart newEnd (start_time event) (end_time event) = false) events ->
  collectConflicts newStart newEnd (Some events) = [].
Proof.
  intros Hrequest Hpositive Hfree. rewrite collectConflicts_filter.
  induction events as [|event events IH]; [reflexivity|].
  inversion Hpositive; subst. inversion Hfree as [|? ? Hevent Hrest]; subst.
  cbn [filter]. rewrite timesOverlap_overlaps, Hevent by assumption. now apply IH.
Qed.

Lemma suggested_slot_recheck :
  forall utcOfLocal supabase venueId newStart newEnd excludeEventId existingEvents check s,
    newStart < newEnd ->
    Forall (fun event => start_time event < end_time event) existingEvents ->
    ForallOrdPairs disjointEvents existingEvents ->
    isoDate newStart * msPerDay <= dayStartOf utcOfLocal (isoDate newStart) ->
    dayEndOf utcOfLocal (isoDate newStart) < (isoDate newStart + 1) * msPerDay ->
    supabase (buildQuery venueId (isoDate newStart) excludeEventId)
    = Resolved {| data := Some existingEvents; error := None |} ->
    checkVenueConflict utcOfLocal supabase venueId newStart newEnd excludeEventId
    = Resolved check ->
    In s (suggestedSlots check) ->
    slot_start_time s < slot_end_time s
    /\ checkVenueConflict utcOfLocal supabase venueId (slot_start_time s) (slot_end_time s)
                          excludeEventId
       = Resolved noConflict.
Proof.
  intros utcOfLocal supabase venueId newStart newEnd excludeEventId existingEvents check s
         Hrequest Hpositive Hpairs Hfrom Hto Hfetch Hcheck Hin.
  unfold checkVenueConflict in Hcheck. rewrite Hfetch in Hcheck.
  cbn [await data error orEmpty] in Hcheck.
  destruct (generateSuggestedSlots utcOfLocal venueId (isoDate newStart) newStart newEnd
                                   existingEvents) as [slots|reason] eqn:Hslots;
    [|rewrite generateSuggestedSlots_candidates in Hslots; discriminate Hslots].
  assert (Hs : In s slots).
  { destruct (0 <? length _)%nat; cbn [await] in Hcheck;
      apply Resolved_inj in Hcheck; subst check; cbn [suggestedSlots] in Hin;
      [exact Hin|contradiction]. }
  clear Hcheck Hin.
  destruct (generateSuggestedSlots_within _ _ _ _ _ _ _ _ Hslots Hs) as [Hwithin Hcandidate].
  apply withinWorkingHours_bounds in Hwithin. destruct Hwithin as [Hlow Hhigh].
  pose proof (candidateSlots_duration _ _ _ _ _ _ Hcandidate) as Hduration.
  pose proof (generateSuggestedSlots_slot_free _ _ _ _ _ _ _ _ Hpositive Hpairs Hslots Hs)
    as Hfree.
  assert (Hday : isoDate (slot_start_time s) = isoDate newStart)
    by (apply isoDate_in_day; lia).
  split; [lia|].
  unfold checkVenueConflict. rewrite Hday, Hfetch. cbn [await data error].
  rewrite collectConflicts_none; [reflexivity|lia|exact Hpositive|exact Hfree].
Qed.

(** X5. When the fetched bookings are intervals no two of which
    overlap, the request has start < end and the working hours of the
    day lie within its UTC day, a slot that [checkVenueConflict]
    suggests passes the check itself: asked again with the slot as the
    request, and given the same answer by the store, it reports no
    conflict. *)
Theorem suggested_slot_passes_the_check :
  forall utcOfLocal supabase venueId newStart newEnd excludeEventId existingEvents check s,
    newStart < newEnd ->
    Forall (fun event => start_time event < end_time event) existingEvents ->
    ForallOrdPairs disjointEvents existingEvents ->
    isoDate newStart * msPerDay <= dayStartOf utcOfLocal (isoDate newStart) ->
    dayEndOf utcOfLocal (isoDate newStart) < (isoDate newStart + 1) * msPerDay ->
    supabase (buildQuery venueId (isoDate newStart) excludeEventId)
    = Resolved {| data := Some existingEvents; error := None |} ->
    checkVenueConflict utcOfLocal supabase venueId newStart newEnd excludeEventId
    = Resolved check ->
    In s (suggestedSlots check) ->
    checkVenueConflict utcOfLocal supabase venueId (slot_start_time s) (slot_end_time s)
                       excludeEventId
    = Resolved noConflict.
Proof.
  intros utcOfLocal supabase venueId newStart newEnd excludeEventId existingEvents check s
         Hrequest Hpositive Hpairs Hfrom Hto Hfetch Hcheck Hin.
  exact (proj2 (suggested_slot_recheck _ _ _ _ _ _ _ _ _ Hrequest Hpositive Hpairs
                                       Hfrom Hto Hfetch Hcheck Hin)).
Qed.

Lemma suggested_slot_passes_the_check_witness :
  checkVenueConflict utcHost (tableStore [bookingA; bookingB]) "hall"
                     (clock 11 0) (clock 13 0) None
  = Resolved {| hasConflict := true;
                conflictingEvents := [bookingA];
                suggestedSlots := [slot (clock 14 0) (clock 16 0)] |}
  /\ checkVenueConflict utcHost (tableStore [bookingA; bookingB]) "hall"
                        (clock 14 0) (clock 16 0) None
     = Resolved noConflict.
Proof.
  split; [reflexivity|].
  apply (suggested_slot_passes_the_check
           utcHost (tableStore [bookingA; bookingB]) "hall" (clock 11 0) (clock 13 0) None
           [bookingA; bookingB]
           {| hasConflict := true;
              conflictingEvents := [bookingA];
              suggestedSlots := [slot (clock 14 0) (clock 16 0)] |}
           (slot (clock 14 0) (clock 16 0))).
  - reflexivity.
  - repeat constructor.
  - repeat constructor.
  - vm_compute. discriminate.
  - reflexivity.
  - reflexivity.
  - reflexivity.
  - left. reflexivity.
Defined.

(** ** The page that creates an event *)

Lemma minLength_nil n field message value :
  AddEvent.minLength n field message value = [] <-> (n <= String.length value)%nat.
Proof.
  unfold AddEvent.minLength. destruct (Nat.ltb_spec (String.length value) n).
  - split; [discriminate|lia].
  - split; [lia|reflexivity].
Qed.

Lemma nonEmpty_nil field message value :
  AddEvent.nonEmpty field message value = [] <-> exists d, value = Some d.
Proof.
  unfold AddEvent.nonEmpty. destruct value as [d|].
  - split; [eauto|reflexivity].
  - split; [discriminate|intros [d Hd]; discriminate Hd].
Qed.

Lemma length_one_nonempty (s : string) : (1 <= String.length s)%nat <-> s <> EmptyString.
Proof.
  destruct s; simpl; split; intros H; try lia; try discriminate.
  now contradiction H.
Qed.

Lemma app_nil_iff {A : Type} (l l' : list A) : l ++ l' = [] <-> l = [] /\ l' = [].
Proof.
  split; [apply app_eq_nil|intros [-> ->]; reflexivity].
Qed.

Lemma eventSchema_nil formData :
  AddEvent.eventSchema formData = [] <->
  (3 <= String.length (AddEvent.event_name formData))%nat
  /\ AddEvent.venue_id formData <> EmptyString
  /\ (exists d, AddEvent.start_time formData = Some d)
  /\ (exists d, AddEvent.end_time formData = Some d)
  /\ (exists d, AddEvent.registration_start formData = Some d)
  /\ (exists d, AddEvent.registration_end formData = Some d).
Proof.
  unfold AddEvent.eventSchema.
  rewrite !app_nil_iff, (minLength_nil 3), (minLength_nil 1), !nonEmpty_nil,
    length_one_nonempty.
  tauto.
Qed.

(** An AddEvent.acceptable form goes to the conflict check, with its own times. *)
Lemma handleSubmit_acceptable utcOfLocal supabase venues formData
      startTime endTime :
  AddEvent.acceptable formData ->
  AddEvent.start_time formData = Some startTime ->
  AddEvent.end_time formData = Some endTime ->
  AddEvent.handleSubmit utcOfLocal supabase venues formData
  = AddEvent.afterCheck (AddEvent.venueNameOf venues (AddEvent.venue_id formData))
               (checkVenueConflict utcOfLocal supabase (AddEvent.venue_id formData)
                                   startTime endTime None).
Proof.
  intros (Hname & Hvenue & Hclub & s & e & rs & re & Hs & He & Hrs & Hre & H1 & H2 & H3)
         Hstart Hend.
  assert (Hschema : AddEvent.eventSchema formData = [])
    by (apply eventSchema_nil; eauto 10).
  unfold AddEvent.handleSubmit. rewrite Hschema, Hs, He, Hrs, Hre.
  rewrite Hs in Hstart. rewrite He in Hend.
  injection Hstart as ->. injection Hend as ->.
  destruct (AddEvent.club_id formData); [now contradiction Hclub|].
  rewrite Z.gtb_ltb.
  destruct (Z.leb_spec endTime startTime); [lia|].
  destruct (Z.leb_spec re rs); [lia|].
  destruct (Z.ltb_spec startTime re); [lia|].
  reflexivity.
Qed.

Lemma handleSubmit_rejects utcOfLocal supabase venues formData :
  ~ AddEvent.acceptable formData ->
  exists errors,
    AddEvent.handleSubmit utcOfLocal supabase venues formData = AddEvent.ShowErrors errors.
Proof.
  intros Hnot. unfold AddEvent.handleSubmit.
  destruct (AddEvent.eventSchema formData) as [|firstIssue issues] eqn:Hschema;
    [|destruct (AddEvent.start_time formData), (AddEvent.end_time formData),
               (AddEvent.registration_start formData),
               (AddEvent.registration_end formData); eauto].
  apply eventSchema_nil in Hschema.
  destruct Hschema as (Hname & Hvenue & [s Hs] & [e He] & [rs Hrs] & [re Hre]).
  rewrite Hs, He, Hrs, Hre.
  destruct (AddEvent.club_id formData) eqn:Hclub; [eauto|].
  rewrite Z.gtb_ltb.
  destruct (Z.leb_spec e s); [eauto|].
  destruct (Z.leb_spec re rs); [eauto|].
  destruct (Z.ltb_spec s re); [eauto|].
  exfalso. apply Hnot. unfold AddEvent.acceptable. rewrite Hclub.
  split; [exact Hname|]. split; [exact Hvenue|]. split; [discriminate|].
  exists s, e, rs, re. repeat split; try assumption; lia.
Qed.

Lemma acceptable_dec formData : AddEvent.acceptable formData \/ ~ AddEvent.acceptable formData.
Proof.
  unfold AddEvent.acceptable.
  destruct (le_dec 3 (String.length (AddEvent.event_name formData))); [|tauto].
  destruct (string_dec (AddEvent.venue_id formData) EmptyString); [tauto|].
  destruct (string_dec (AddEvent.club_id formData) EmptyString); [tauto|].
  destruct (AddEvent.start_time formData) as [s|];
    [|right; intros (_ & _ & _ & ? & ? & ? & ? & H & _); discriminate H].
  destruct (AddEvent.end_time formData) as [e|];
    [|right; intros (_ & _ & _ & ? & ? & ? & ? & _ & H & _); discriminate H].
  destruct (AddEvent.registration_start formData) as [rs|];
    [|right; intros (_ & _ & _ & ? & ? & ? & ? & _ & _ & H & _); discriminate H].
  destruct (AddEvent.registration_end formData) as [re|];
    [|right; intros (_ & _ & _ & ? & ? & ? & ? & _ & _ & _ & H & _); discriminate H].
  destruct (Z_lt_dec rs re), (Z_le_dec re s), (Z_lt_dec s e);
    try (left; repeat split; try assumption; exists s, e, rs, re; tauto);
    right; intros (_ & _ & _ & s' & e' & rs' & re' & Hs & He & Hrs & Hre & H1 & H2 & H3);
    injection Hs as <-; injection He as <-; injection Hrs as <-; injection Hre as <-; lia.
Qed.

(** X6. [handleSubmit] stops with field errors exactly when the form
    is not acceptable: a name of fewer than three characters, no venue,
    no club, an empty date, or dates that are not in the order
    registration start < registration end <= start < end. *)
Theorem handleSubmit_shows_errors_iff_unacceptable :
  forall utcOfLocal supabase venues formData,
    (exists errors,
        AddEvent.handleSubmit utcOfLocal supabase venues formData = AddEvent.ShowErrors errors)
    <-> ~ AddEvent.acceptable formData.
Proof.
  intros utcOfLocal supabase venues formData. split.
  - intros [errors Herrors] Hok.
    pose proof Hok as (_ & _ & _ & s & e & _ & _ & Hs & He & _).
    rewrite (handleSubmit_acceptable _ _ _ _ s e Hok Hs He) in Herrors.
    unfold AddEvent.afterCheck in Herrors.
    destruct (checkVenueConflict _ _ _ _ _ _) as [c|]; [|discriminate].
    destruct (hasConflict c); discriminate.
  - apply handleSubmit_rejects.
Qed.


Example scenario_form_with_conflict :
  AddEvent.handleSubmit utcHost (tableStore [bookingA; bookingB]) [] AddEvent.hackathon
  = AddEvent.ShowConflict "Selected Venue" [bookingA] [slot (clock 14 0) (clock 16 0)].
Proof. reflexivity. Qed.

Lemma filter_nil_all {A : Type} (keep : A -> bool) (l : list A) :
  filter keep l = [] -> Forall (fun x => keep x = false) l.
Proof.
  induction l as [|x l IH]; simpl; [constructor|].
  destruct (keep x) eqn:Hx; [discriminate|]. intros H. constructor; auto.
Qed.

(** X7. [handleSubmit] goes on to create the event only for a request
    with start < end that, when the fetch succeeded with bookings each
    having start < end, overlaps none of the fetched bookings. *)
Theorem handleSubmit_creates_only_without_overlap :
  forall utcOfLocal supabase venues formData startTime endTime existingEvents,
    AddEvent.handleSubmit utcOfLocal supabase venues formData = AddEvent.CreateEvent ->
    AddEvent.start_time formData = Some startTime ->
    AddEvent.end_time formData = Some endTime ->
    supabase (buildQuery (AddEvent.venue_id formData) (isoDate startTime) None)
    = Resolved {| data := Some existingEvents; error := None |} ->
    Forall (fun event => start_time event < end_time event) existingEvents ->
    startTime < endTime
    /\ Forall (fun event =>
                 overlaps startTime endTime (start_time event) (end_time event) = false)
              existingEvents.
Proof.
  intros utcOfLocal supabase venues formData startTime endTime existingEvents
         Hcreate Hstart Hend Hfetch Hpositive.
  destruct (acceptable_dec formData) as [Hok|Hnot];
    [|destruct (handleSubmit_rejects utcOfLocal supabase venues formData Hnot) as [? H];
      congruence].
  rewrite (handleSubmit_acceptable _ _ _ _ _ _ Hok Hstart Hend) in Hcreate.
  destruct Hok as (_ & _ & _ & s & e & rs & re & Hs & He & _ & _ & _ & _ & Hlt).
  assert (s = startTime) as -> by congruence. assert (e = endTime) as -> by congruence.
  split; [exact Hlt|].
  unfold checkVenueConflict in Hcreate. rewrite Hfetch in Hcreate.
  cbn [await data error orEmpty] in Hcreate.
  rewrite generateSuggestedSlots_candidates in Hcreate.
  destruct (0 <? length (collectConflicts _ _ _))%nat eqn:Hany;
    cbn [await AddEvent.afterCheck hasConflict] in Hcreate; [discriminate|].
  rewrite collectConflicts_filter in Hany.
  destruct (filter _ existingEvents) eqn:Hfilter; [|discriminate].
  apply filter_nil_all in Hfilter.
  rewrite Forall_forall in *. intros event Hevent.
  rewrite <- (timesOverlap_overlaps _ _ _ _ Hlt (Hpositive event Hevent)).
  now apply Hfilter.
Qed.


Lemma handleSubmit_creates_only_without_overlap_witness :
  AddEvent.handleSubmit utcHost (tableStore [bookingB]) [] AddEvent.hackathon
  = AddEvent.CreateEvent
  /\ clock 11 0 < clock 13 0
  /\ Forall (fun event =>
               overlaps (clock 11 0) (clock 13 0) (start_time event) (end_time event) = false)
            [bookingB].
Proof.
  split; [reflexivity|].
  apply (handleSubmit_creates_only_without_overlap
           utcHost (tableStore [bookingB]) [] AddEvent.hackathon (clock 11 0) (clock 13 0)
           [bookingB]).
  - reflexivity.
  - reflexivity.
  - reflexivity.
  - reflexivity.
  - repeat constructor.
Defined.

(** X8. For an acceptable form, when the booking fetch completes with an
    error [handleSubmit] goes on to create the event, no booking having
    been compared; when the awaited fetch rejects it creates nothing and
    reports that the availability check failed. *)
Theorem handleSubmit_on_fetch_failure :
  forall utcOfLocal supabase venues formData startTime,
    AddEvent.acceptable formData ->
    AddEvent.start_time formData = Some startTime ->
    (forall response err,
        supabase (buildQuery (AddEvent.venue_id formData) (isoDate startTime) None)
        = Resolved response ->
        error response = Some err ->
        AddEvent.handleSubmit utcOfLocal supabase venues formData = AddEvent.CreateEvent)
    /\ (forall reason,
           supabase (buildQuery (AddEvent.venue_id formData) (isoDate startTime) None)
           = Rejected reason ->
           AddEvent.handleSubmit utcOfLocal supabase venues formData = AddEvent.CheckFailed).
Proof.
  intros utcOfLocal supabase venues formData startTime Hok Hstart.
  pose proof Hok as (_ & _ & _ & s & e & _ & _ & Hs & He & _).
  assert (s = startTime) as -> by congruence.
  rewrite (handleSubmit_acceptable _ _ _ _ _ _ Hok Hstart He).
  unfold checkVenueConflict. split.
  - intros response err -> Herr. cbn [await]. now rewrite Herr.
  - intros reason ->. reflexivity.
Qed.


Lemma hackathon_acceptable : AddEvent.acceptable AddEvent.hackathon.
Proof.
  unfold AddEvent.acceptable.
  split; [simpl; lia|]. split; [discriminate|]. split; [discriminate|].
  exists (clock 11 0), (clock 13 0), (clock 7 0), (clock 8 0).
  repeat split; try reflexivity. discriminate.
Defined.

Lemma handleSubmit_on_fetch_failure_witness :
  AddEvent.acceptable AddEvent.hackathon
  /\ AddEvent.handleSubmit utcHost (failingStore "timeout") [] AddEvent.hackathon
     = AddEvent.CreateEvent
  /\ AddEvent.handleSubmit utcHost (rejectingStore "offline") [] AddEvent.hackathon
     = AddEvent.CheckFailed.
Proof.
  split; [exact hackathon_acceptable|]. split.
  - apply (proj1 (handleSubmit_on_fetch_failure
                    utcHost (failingStore "timeout") [] AddEvent.hackathon (clock 11 0)
                    hackathon_acceptable eq_refl)
                 {| data := None; error := Some {| message := "timeout" |} |}
                 {| message := "timeout" |});
      reflexivity.
  - apply (proj2 (handleSubmit_on_fetch_failure
                    utcHost (rejectingStore "offline") [] AddEvent.hackathon (clock 11 0)
                    hackathon_acceptable eq_refl)
                 "offline"%string).
    reflexivity.
Defined.

(** X9. After the conflict dialog, when the fetched bookings are
    intervals no two of which overlap and the working hours lie within
    the UTC day of the request, a form into which [handleSelectSlot] has
    put one of the suggested slots does not meet the dialog again:
    submitted against the same answer of the store it goes on to create
    the event, unless registration ends after the slot begins, which is
    reported as a field error. *)
Theorem handleSelectSlot_resubmission :
  forall utcOfLocal supabase venues formData startTime regEnd existingEvents
         venueName conflicting slots s,
    AddEvent.handleSubmit utcOfLocal supabase venues formData
    = AddEvent.ShowConflict venueName conflicting slots ->
    In s slots ->
    AddEvent.start_time formData = Some startTime ->
    AddEvent.registration_end formData = Some regEnd ->
    supabase (buildQuery (AddEvent.venue_id formData) (isoDate startTime) None)
    = Resolved {| data := Some existingEvents; error := None |} ->
    Forall (fun event => start_time event < end_time event) existingEvents ->
    ForallOrdPairs disjointEvents existingEvents ->
    isoDate startTime * msPerDay <= dayStartOf utcOfLocal (isoDate startTime) ->
    dayEndOf utcOfLocal (isoDate startTime) < (isoDate startTime + 1) * msPerDay ->
    AddEvent.handleSubmit utcOfLocal supabase venues (AddEvent.handleSelectSlot formData s)
    = if regEnd >? slot_start_time s
      then AddEvent.ShowErrors
             [AddEvent.issue "registration_end" "Registration must end before event starts"]
      else AddEvent.CreateEvent.
Proof.
  intros utcOfLocal supabase venues formData startTime regEnd existingEvents
         venueName conflicting slots s Hshown Hin Hstart Hreg Hfetch Hpositive Hpairs
         Hfrom Hto.
  destruct (acceptable_dec formData) as [Hok|Hnot];
    [|destruct (handleSubmit_rejects utcOfLocal supabase venues formData Hnot) as [? H];
      congruence].
  pose proof Hok as (Hname & Hvenue & Hclub & s0 & e & rs & re & Hs & He & Hrs & Hre
                     & H1 & H2 & H3).
  assert (s0 = startTime) as -> by congruence. assert (re = regEnd) as -> by congruence.
  rewrite (handleSubmit_acceptable _ _ _ _ _ _ Hok Hstart He) in Hshown.
  unfold AddEvent.afterCheck in Hshown.
  destruct (checkVenueConflict utcOfLocal supabase (AddEvent.venue_id formData)
                               startTime e None) as [check|reason] eqn:Hcheck;
    [|discriminate].
  destruct (hasConflict check); [|discriminate].
  assert (Hslots : suggestedSlots check = slots) by congruence.
  rewrite <- Hslots in Hin.
  destruct (suggested_slot_recheck _ _ _ _ _ _ _ _ _ H3 Hpositive Hpairs Hfrom Hto
                                   Hfetch Hcheck Hin) as [Hlength Hrecheck].
  rewrite Z.gtb_ltb.
  destruct (Z.ltb_spec (slot_start_time s) regEnd) as [Hlate|Hearly].
  - unfold AddEvent.handleSubmit.
    assert (Hschema : AddEvent.eventSchema (AddEvent.handleSelectSlot formData s) = []).
    { apply eventSchema_nil. cbn. rewrite Hrs, Hre. eauto 10. }
    rewrite Hschema. cbn [AddEvent.handleSelectSlot AddEvent.start_time AddEvent.end_time
                          AddEvent.registration_start AddEvent.registration_end
                          AddEvent.club_id AddEvent.venue_id].
    rewrite Hrs, Hre.
    destruct (AddEvent.club_id formData); [now contradiction Hclub|].
    rewrite Z.gtb_ltb.
    destruct (Z.leb_spec (slot_end_time s) (slot_start_time s)); [lia|].
    destruct (Z.leb_spec regEnd rs); [lia|].
    destruct (Z.ltb_spec (slot_start_time s) regEnd); [reflexivity|lia].
  - assert (Hok' : AddEvent.acceptable (AddEvent.handleSelectSlot formData s)).
    { unfold AddEvent.acceptable. cbn. repeat split; try assumption.
      exists (slot_start_time s), (slot_end_time s), rs, regEnd.
      repeat split; try assumption; reflexivity. }
    rewrite (handleSubmit_acceptable _ _ _ _ (slot_start_time s) (slot_end_time s) Hok')
      by reflexivity.
    cbn [AddEvent.handleSelectSlot AddEvent.venue_id].
    rewrite Hrecheck. reflexivity.
Qed.

Lemma handleSelectSlot_resubmission_witness :
  AddEvent.handleSubmit utcHost (tableStore [bookingA; bookingB]) [] AddEvent.hackathon
  = AddEvent.ShowConflict "Selected Venue" [bookingA] [slot (clock 14 0) (clock 16 0)]
  /\ AddEvent.handleSubmit utcHost (tableStore [bookingA; bookingB]) []
       (AddEvent.handleSelectSlot AddEvent.hackathon (slot (clock 14 0) (clock 16 0)))
     = AddEvent.CreateEvent.
Proof.
  split; [reflexivity|].
  apply (handleSelectSlot_resubmission
           utcHost (tableStore [bookingA; bookingB]) [] AddEvent.hackathon
           (clock 11 0) (clock 8 0) [bookingA; bookingB]
           "Selected Venue" [bookingA] [slot (clock 14 0) (clock 16 0)]
           (slot (clock 14 0) (clock 16 0))).
  - reflexivity.
  - left. reflexivity.
  - reflexivity.
  - reflexivity.
  - reflexivity.
  - repeat constructor.
  - repeat constructor.
  - vm_compute. discriminate.
  - reflexivity.
Defined.

(** ** The listing of events *)

Lemma insertWith_perm {A : Type} (compareFn : A -> A -> Z) (x : A) (l : list A) :
  Permutation (x :: l) (insertWith compareFn x l).
Proof.
  induction l as [|y l IH]; simpl; [reflexivity|].
  destruct (compareFn x y <=? 0); [reflexivity|].
  rewrite perm_swap. now constructor.
Qed.

Lemma sortWith_perm {A : Type} (compareFn : A -> A -> Z) (l : list A) :
  Permutation l (sortWith compareFn l).
Proof.
  induction l as [|x l IH]; simpl; [constructor|].
  rewrite <- insertWith_perm. now constructor.
Qed.

(** A comparator that decides a transitive order sorts by it. *)
Lemma insertWith_sorted {A : Type} (compareFn : A -> A -> Z) (R : A -> A -> Prop)
      (x : A) (l : list A) :
  (forall a b, compareFn a b <= 0 -> R a b) ->
  (forall a b, 0 < compareFn a b -> R b a) ->
  (forall a b c, R a b -> R b c -> R a c) ->
  StronglySorted R l -> StronglySorted R (insertWith compareFn x l).
Proof.
  intros Hle Hgt Htrans Hsorted.
  induction Hsorted as [|y l Hsorted IH Hy]; simpl.
  - repeat constructor.
  - destruct (Z.leb_spec (compareFn x y) 0) as [Hxy|Hxy].
    + constructor; [now constructor|].
      constructor; [now apply Hle|].
      rewrite Forall_forall in *. intros z Hz. apply (Htrans x y z); auto.
    + constructor; [exact IH|].
      apply Forall_forall. intros z Hz.
      apply (Permutation_in _ (Permutation_sym (insertWith_perm compareFn x l))) in Hz.
      destruct Hz as [<-|Hz]; [now apply Hgt|].
      rewrite Forall_forall in Hy. now apply Hy.
Qed.

Lemma sortWith_sorted {A : Type} (compareFn : A -> A -> Z) (R : A -> A -> Prop) (l : list A) :
  (forall a b, compareFn a b <= 0 -> R a b) ->
  (forall a b, 0 < compareFn a b -> R b a) ->
  (forall a b c, R a b -> R b c -> R a c) ->
  StronglySorted R (sortWith compareFn l).
Proof.
  intros Hle Hgt Htrans. induction l as [|x l IH]; simpl; [constructor|].
  now apply insertWith_sorted.
Qed.

(** X10. The listing is ordered by start time: ascending when the
    sort order is [asc], descending when it is [desc]. *)
Theorem filteredEvents_ordered :
  forall utcOfLocal toLowerCase f events,
    match Index.sortOrder f with
    | Index.asc =>
        StronglySorted (fun a b => Event.start_time a <= Event.start_time b)
                       (Index.filteredEvents utcOfLocal toLowerCase f events)
    | Index.desc =>
        StronglySorted (fun a b => Event.start_time b <= Event.start_time a)
                       (Index.filteredEvents utcOfLocal toLowerCase f events)
    end.
Proof.
  intros utcOfLocal toLowerCase f events. unfold Index.filteredEvents.
  destruct (Index.sortOrder f); apply sortWith_sorted; unfold Index.byDate; intros; lia.
Qed.

Lemma includes_occursIn s searchString :
  includes s searchString = true <-> occursIn searchString s.
Proof.
  unfold includes, occursIn.
  destruct (index 0 searchString s) as [m|] eqn:Hindex.
  - split; [intros _|reflexivity]. exists m. exact (index_correct1 _ _ _ _ Hindex).
  - split; [discriminate|]. intros [m Hm]. exfalso.
    destruct searchString as [|c rest].
    + destruct s; discriminate Hindex.
    + refine (index_correct3 0 m _ _ Hindex _ _ Hm); [discriminate|lia].
Qed.

Lemma isEmpty_true s : isEmpty s = true <-> s = EmptyString.
Proof. destruct s; simpl; split; intros H; try reflexivity; discriminate H. Qed.

Lemma matches_shows utcOfLocal toLowerCase f event :
  Index.matches utcOfLocal toLowerCase f event = true
  <-> Index.shows utcOfLocal toLowerCase f event.
Proof.
  unfold Index.matches, Index.shows, Index.matchesSearch, Index.matchesClub,
    Index.matchesVenue, Index.matchesDateFrom, Index.matchesDateTo.
  rewrite !andb_true_iff, !orb_true_iff, !isEmpty_true, !String.eqb_eq, !includes_occursIn.
  assert (Hdescription :
            match Event.description event with
            | Some text => includes (toLowerCase text) (toLowerCase (Index.search f))
            | None => false
            end = true
            <-> exists text,
                Event.description event = Some text
                /\ occursIn (toLowerCase (Index.search f)) (toLowerCase text)).
  { destruct (Event.description event) as [text|].
    - rewrite includes_occursIn. split; [eauto|].
      intros [text' [[= <-] Hoccurs]]. exact Hoccurs.
    - split; [discriminate|]. intros [text [Hsome _]]. discriminate Hsome. }
  assert (Hfrom :
            match Index.dateFrom f with
            | Some day => Event.start_time event >=? day * msPerDay
            | None => true
            end = true
            <-> forall day, Index.dateFrom f = Some day ->
                            day * msPerDay <= Event.start_time event).
  { destruct (Index.dateFrom f) as [day|].
    - rewrite Z.geb_leb, Z.leb_le. split; [intros H ? [= <-]; exact H|auto].
    - split; [intros _ ? H; discriminate H|reflexivity]. }
  assert (Hto :
            match Index.dateTo f with
            | Some day => Event.start_time event <=? utcOfLocal (dateTime day 23 59 59)
            | None => true
            end = true
            <-> forall day, Index.dateTo f = Some day ->
                            Event.start_time event <= utcOfLocal (dateTime day 23 59 59)).
  { destruct (Index.dateTo f) as [day|].
    - rewrite Z.leb_le. split; [intros H ? [= <-]; exact H|auto].
    - split; [intros _ ? H; discriminate H|reflexivity]. }
  rewrite Hdescription, Hfrom, Hto. tauto.
Qed.

Lemma count_occ_filter (keep : Event.t -> bool) (l : list Event.t) (event : Event.t) :
  count_occ Event.eq_dec (filter keep l) event
  = if keep event then count_occ Event.eq_dec l event else 0%nat.
Proof.
  induction l as [|x l IH]; simpl; [now destruct (keep event)|].
  destruct (keep x) eqn:Hx; simpl; destruct (Event.eq_dec x event) as [->|Hne];
    rewrite ?IH; try reflexivity.
  - now rewrite Hx.
  - now rewrite Hx.
Qed.

(** X11. The listing holds exactly the fetched events of which the
    filters hold: an event is listed if and only if it was fetched and
    matches the search text, the club, the venue and the two dates, as
    [Index.shows] says in words; such an event is listed as often as it
    was fetched; after [clearFilters] every event is listed. *)
Theorem filteredEvents_exact :
  forall utcOfLocal toLowerCase f events,
    (forall event,
        In event (Index.filteredEvents utcOfLocal toLowerCase f events)
        <-> In event events /\ Index.shows utcOfLocal toLowerCase f event)
    /\ (forall event,
           Index.shows utcOfLocal toLowerCase f event ->
           count_occ Event.eq_dec (Index.filteredEvents utcOfLocal toLowerCase f events) event
           = count_occ Event.eq_dec events event)
    /\ Permutation (Index.filteredEvents utcOfLocal toLowerCase (Index.clearFilters f) events)
                   events.
Proof.
  intros utcOfLocal toLowerCase f events. unfold Index.filteredEvents.
  split; [|split].
  - intros event. rewrite <- matches_shows, <- filter_In.
    split; apply Permutation_in; [symmetry|]; apply sortWith_perm.
  - intros event Hshown. apply matches_shows in Hshown.
    rewrite <- (proj1 (Permutation_count_occ Event.eq_dec _ _)
                      (sortWith_perm _ (filter (Index.matches utcOfLocal toLowerCase f) events))
                      event).
    rewrite count_occ_filter. now rewrite Hshown.
  - rewrite <- sortWith_perm.
    rewrite filter_all; [reflexivity|]. intros event _. reflexivity.
Qed.

Lemma filteredEvents_exact_witness :
  Index.shows utcHost lowerCase clubOnly (talk "early" (clock 10 0) (clock 11 0))
  /\ In (talk "early" (clock 10 0) (clock 11 0))
        (Index.filteredEvents utcHost lowerCase clubOnly
           [talk "late" (clock 15 0) (clock 16 0); talk "early" (clock 10 0) (clock 11 0)])
  /\ count_occ Event.eq_dec
        (Index.filteredEvents utcHost lowerCase clubOnly
           [talk "late" (clock 15 0) (clock 16 0); talk "early" (clock 10 0) (clock 11 0)])
        (talk "early" (clock 10 0) (clock 11 0))
     = count_occ Event.eq_dec
         [talk "late" (clock 15 0) (clock 16 0); talk "early" (clock 10 0) (clock 11 0)]
         (talk "early" (clock 10 0) (clock 11 0))
  /\ ~ In (talk "late" (clock 15 0) (clock 16 0))
          (Index.filteredEvents utcHost lowerCase clubOnly
             [talk "late" (clock 15 0) (clock 16 0); talk "early" (clock 10 0) (clock 11 0)]).
Proof.
  assert (Hshown : Index.shows utcHost lowerCase clubOnly
                               (talk "early" (clock 10 0) (clock 11 0))).
  { unfold Index.shows. cbn. repeat split.
    - right. left. exists 0%nat. reflexivity.
    - right. right. reflexivity.
    - left. reflexivity.
    - intros day [= <-]. discriminate.
    - intros day [= <-]. discriminate. }
  destruct (filteredEvents_exact utcHost lowerCase clubOnly
              [talk "late" (clock 15 0) (clock 16 0); talk "early" (clock 10 0) (clock 11 0)])
    as (Hlisted & Hcount & _).
  split; [exact Hshown|]. split; [|split].
  - apply Hlisted. split; [right; left; reflexivity|exact Hshown].
  - exact (Hcount _ Hshown).
  - intros Hin. apply Hlisted in Hin. destruct Hin as [_ Hlate].
    apply matches_shows in Hlate. vm_compute in Hlate. discriminate Hlate.
Defined.

Lemma StronglySorted_snoc {A : Type} (R : A -> A -> Prop) (l : list A) (x : A) :
  StronglySorted R l -> Forall (fun y => R y x) l -> StronglySorted R (l ++ [x]).
Proof.
  intros Hsorted. induction Hsorted as [|y l Hsorted IH Hy]; intros Hx; simpl.
  - repeat constructor.
  - inversion Hx as [|? ? Hyx Hlx]; subst.
    constructor; [now apply IH|].
    apply Forall_app. split; [exact Hy|]. now constructor.
Qed.

Lemma StronglySorted_rev {A : Type} (R : A -> A -> Prop) (l : list A) :
  StronglySorted R l -> StronglySorted (fun a b => R b a) (rev l).
Proof.
  intros Hsorted. induction Hsorted as [|x l Hsorted IH Hx]; simpl; [constructor|].
  apply StronglySorted_snoc; [exact IH|].
  apply Forall_forall. intros y Hy. apply in_rev in Hy.
  rewrite Forall_forall in Hx. now apply Hx.
Qed.

(** Two orderings of the same elements by a key that tells them apart
    are the same list. *)
Lemma sorted_by_key_unique {A : Type} (key : A -> Z) :
  forall l1 l2 : list A,
    StronglySorted (fun a b => key a <= key b) l1 ->
    StronglySorted (fun a b => key a <= key b) l2 ->
    Permutation l1 l2 ->
    NoDup (map key l1) ->
    l1 = l2.
Proof.
  induction l1 as [|a l1 IH]; intros l2 H1 H2 Hperm Hdistinct.
  - apply Permutation_nil in Hperm. now subst.
  - destruct l2 as [|b l2];
      [apply Permutation_sym, Permutation_nil in Hperm; discriminate Hperm|].
    inversion H1 as [|? ? H1' Ha]; subst. inversion H2 as [|? ? H2' Hb]; subst.
    inversion Hdistinct as [|? ? Hfresh Hdistinct']; subst.
    assert (Hab : a = b).
    { assert (Hina : In a (b :: l2)) by (apply (Permutation_in _ Hperm); now left).
      assert (Hinb : In b (a :: l1))
        by (apply (Permutation_in _ (Permutation_sym Hperm)); now left).
      destruct Hina as [Hina|Hina]; [now symmetry|].
      destruct Hinb as [Hinb|Hinb]; [exact Hinb|].
      rewrite Forall_forall in Ha, Hb.
      specialize (Ha b Hinb). specialize (Hb a Hina).
      exfalso. apply Hfresh. replace (key a) with (key b) by lia.
      now apply in_map. }
    subst b. f_equal. apply IH; try assumption.
    now apply Permutation_cons_inv in Hperm.
Qed.

Lemma StronglySorted_weaken {A : Type} (R R' : A -> A -> Prop) (l : list A) :
  (forall a b, R a b -> R' a b) -> StronglySorted R l -> StronglySorted R' l.
Proof.
  intros Himpl Hsorted. induction Hsorted as [|x l Hsorted IH Hx]; constructor; auto.
  rewrite Forall_forall in *. auto.
Qed.

Lemma NoDup_filter_keys {A : Type} (key : A -> Z) (keep : A -> bool) (l : list A) :
  NoDup (map key l) -> NoDup (map key (filter keep l)).
Proof.
  induction l as [|x l IH]; simpl; intros Hdistinct; [constructor|].
  inversion Hdistinct as [|? ? Hfresh Hrest]; subst.
  destruct (keep x); [|now apply IH].
  simpl. constructor; [|now apply IH].
  intros Hin. apply Hfresh. apply in_map_iff in Hin.
  destruct Hin as [other [Hkey Hother]]. apply filter_In in Hother.
  rewrite <- Hkey. apply in_map. tauto.
Qed.

Lemma NoDup_opposite_keys {A : Type} (key : A -> Z) (l : list A) :
  NoDup (map key l) -> NoDup (map (fun x => - key x) l).
Proof.
  induction l as [|x l IH]; simpl; intros Hdistinct; [constructor|].
  inversion Hdistinct as [|? ? Hfresh Hrest]; subst.
  constructor; [|now apply IH].
  intros Hin. apply Hfresh. apply in_map_iff in Hin.
  destruct Hin as [other [Hkey Hother]].
  replace (key x) with (key other) by lia. now apply in_map.
Qed.

(** X12. When the events have distinct start times, changing the sort
    order from [asc] to [desc] reverses the listing. *)
Theorem filteredEvents_toggle_reverses :
  forall utcOfLocal toLowerCase f events,
    NoDup (map Event.start_time events) ->
    Index.filteredEvents utcOfLocal toLowerCase (Index.setSortOrder f Index.desc) events
    = rev (Index.filteredEvents utcOfLocal toLowerCase (Index.setSortOrder f Index.asc) events).
Proof.
  intros utcOfLocal toLowerCase f events Hdistinct.
  unfold Index.filteredEvents. cbn [Index.setSortOrder Index.sortOrder].
  change (Index.matches utcOfLocal toLowerCase (Index.setSortOrder f Index.desc))
    with (Index.matches utcOfLocal toLowerCase (Index.setSortOrder f Index.asc)).
  set (shown := filter (Index.matches utcOfLocal toLowerCase (Index.setSortOrder f Index.asc)) events).
  assert (Hshown : NoDup (map Event.start_time shown))
    by (now apply NoDup_filter_keys).
  apply (sorted_by_key_unique (fun event => - Event.start_time event)).
  - apply sortWith_sorted; unfold Index.byDate; intros; lia.
  - apply (StronglySorted_weaken
             (fun a b => Event.start_time b <= Event.start_time a));
      [intros; lia|].
    apply (StronglySorted_rev (fun a b => Event.start_time a <= Event.start_time b)).
    apply sortWith_sorted; unfold Index.byDate; intros; lia.
  - rewrite <- Permutation_rev, <- !sortWith_perm. reflexivity.
  - apply NoDup_opposite_keys.
    apply (Permutation_NoDup (l := map Event.start_time shown)); [|exact Hshown].
    apply Permutation_map, sortWith_perm.
Qed.

Lemma filteredEvents_toggle_reverses_witness :
  NoDup (map Event.start_time [talk "late" (clock 15 0) (clock 16 0);
                               talk "early" (clock 10 0) (clock 11 0)])
  /\ Index.filteredEvents utcHost lowerCase (Index.setSortOrder noFilters Index.desc)
       [talk "late" (clock 15 0) (clock 16 0); talk "early" (clock 10 0) (clock 11 0)]
     = rev (Index.filteredEvents utcHost lowerCase (Index.setSortOrder noFilters Index.asc)
              [talk "late" (clock 15 0) (clock 16 0); talk "early" (clock 10 0) (clock 11 0)]).
Proof.
  assert (Hdistinct :
            NoDup (map Event.start_time [talk "late" (clock 15 0) (clock 16 0);
                                         talk "early" (clock 10 0) (clock 11 0)])).
  { repeat constructor; simpl; intros H; repeat destruct H as [H|H]; try discriminate H;
      exact H. }
  split; [exact Hdistinct|].
  exact (filteredEvents_toggle_reverses utcHost lowerCase noFilters _ Hdistinct).
Defined.

Example scenario_listing :
  Index.filteredEvents utcHost lowerCase noFilters
    [talk "late" (clock 15 0) (clock 16 0); talk "early" (clock 10 0) (clock 11 0)]
  = [talk "early" (clock 10 0) (clock 11 0); talk "late" (clock 15 0) (clock 16 0)].
Proof. reflexivity. Qed.

(** ** Who may do what *)

(** X13. Whenever a card offers the link to edit an event, the page it
    leads to lets the visitor edit that event. *)
Theorem edit_link_is_authorized :
  forall auth event,
    EventCard.canEdit auth event = true -> EditEvent.canEdit auth event = true.
Proof.
  intros auth event. unfold EventCard.canEdit, EditEvent.canEdit.
  destruct (isSome (user auth)), (isSuperAdmin auth), (hasClubPocRole auth),
    (sameClub auth (Event.club_id event)); simpl; congruence.
Qed.

Lemma edit_link_is_authorized_witness :
  EventCard.canEdit (pocOf "ospc") (talk "early" (clock 10 0) (clock 11 0)) = true
  /\ EditEvent.canEdit (pocOf "ospc") (talk "early" (clock 10 0) (clock 11 0)) = true.
Proof.
  split; [reflexivity|].
  apply (edit_link_is_authorized (pocOf "ospc") (talk "early" (clock 10 0) (clock 11 0))).
  reflexivity.
Defined.

(** X14. The navigation bar shows the link to the page that creates an
    event exactly to the visitors whom that page does not send to the
    login page. *)
Theorem add_event_link_matches_guard :
  forall auth, Navbar.showsAddEvent auth = negb (AddEvent.redirectsToLogin auth).
Proof.
  intros auth. unfold Navbar.showsAddEvent, AddEvent.redirectsToLogin.
  destruct (isSome (user auth)), (isSuperAdmin auth), (isClubPoc auth); reflexivity.
Qed.

(** X15. Saving the status with which the edit page opened writes
    [is_open = true] exactly when the event was open, its registration
    has not ended and the event has not ended; so it never opens an
    event that was closed. *)
Theorem saving_loaded_status :
  forall now data,
    EditEvent.savedIsOpen (EditEvent.currentStatus now data) = true
    <-> Event.is_open data = true
        /\ now < Event.registration_end data
        /\ now <= Event.end_time data.
Proof.
  intros now data. unfold EditEvent.currentStatus, EditEvent.savedIsOpen.
  rewrite Z.gtb_ltb.
  destruct (Z.ltb_spec (Event.end_time data) now),
    (Event.is_open data), (Z.ltb_spec now (Event.registration_end data)); simpl;
    split; try discriminate; try tauto; try lia; intros (H1 & H2 & H3);
    try discriminate; lia.
Qed.

(** ** The edge functions *)

Lemma truthy_Some s x : truthy s = Some x -> s = Some x /\ x <> EmptyString.
Proof.
  destruct s as [[|c s]|]; simpl; intros H; try discriminate.
  injection H as <-. split; [reflexivity|discriminate].
Qed.

(** *** send-welcome-email *)

(** X16. An answer with status 200 to a request other than [OPTIONS]
    means that exactly one message was posted to the mail provider, with
    the key of the environment, addressed to the e-mail of the request
    and about its event, and that the provider accepted it. *)
Theorem welcome_success_means_accepted :
  forall RESEND_API_KEY resend generateWelcomeHTML req calls calls' response,
    SendWelcomeEmail.serve RESEND_API_KEY resend generateWelcomeHTML req calls
    = (calls', Resolved response) ->
    String.eqb (SendWelcomeEmail.method req) "OPTIONS" = false ->
    SendWelcomeEmail.status response = 200 ->
    exists emailData address name key accepted,
      SendWelcomeEmail.body req = Resolved emailData
      /\ SendWelcomeEmail.email emailData = Some address /\ address <> EmptyString
      /\ SendWelcomeEmail.eventName emailData = Some name /\ name <> EmptyString
      /\ RESEND_API_KEY = Some key /\ key <> EmptyString
      /\ calls'
         = calls ++ [Edge.Fetch ("Bearer " ++ key)
                       {| Edge.from := Edge.sender;
                          Edge.to := [Some address];
                          Edge.subject := ("✅ You're subscribed to " ++ name)%string;
                          Edge.html := generateWelcomeHTML emailData |}]
      /\ resend calls ("Bearer " ++ key)%string
                {| Edge.from := Edge.sender;
                   Edge.to := [Some address];
                   Edge.subject := ("✅ You're subscribed to " ++ name)%string;
                   Edge.html := generateWelcomeHTML emailData |}
         = Resolved accepted
      /\ Edge.ok accepted = true
      /\ Edge.json accepted = Resolved tt.
Proof.
  intros RESEND_API_KEY resend generateWelcomeHTML req calls calls' response
         Hserve Hmethod Hstatus.
  unfold SendWelcomeEmail.serve in Hserve. rewrite Hmethod in Hserve.
  unfold Edge.tryCatch, Edge.bind, Edge.lift, Edge.ret, Edge.throw in Hserve.
  destruct (SendWelcomeEmail.body req) as [emailData|reason];
    [|injection Hserve as _ <-; discriminate Hstatus].
  destruct (truthy (SendWelcomeEmail.email emailData)) as [address|] eqn:Haddress;
    [|injection Hserve as _ <-; discriminate Hstatus].
  destruct (truthy (SendWelcomeEmail.eventName emailData)) as [name|] eqn:Hname;
    [|injection Hserve as _ <-; discriminate Hstatus].
  apply truthy_Some in Haddress, Hname.
  destruct Haddress as [Haddress Haddress'], Hname as [Hname Hname'].
  unfold SendWelcomeEmail.sendWelcomeEmail in Hserve.
  destruct (truthy RESEND_API_KEY) as [key|] eqn:Hkey;
    [|injection Hserve as _ <-; discriminate Hstatus].
  apply truthy_Some in Hkey. destruct Hkey as [Hkey Hkey'].
  unfold Edge.bind, Edge.lift, Edge.throw in Hserve.
  rewrite Haddress, Hname in Hserve. cbn [SendWelcomeEmail.interpolate] in Hserve.
  destruct (resend calls _ _) as [accepted|reason] eqn:Hresend;
    [|injection Hserve as _ <-; discriminate Hstatus].
  destruct (Edge.ok accepted) eqn:Hok.
  - destruct (Edge.json accepted) as [[]|reason] eqn:Hjson;
      [|injection Hserve as _ <-; discriminate Hstatus].
    injection Hserve as <- _.
    exists emailData, address, name, key, accepted. repeat split; assumption.
  - destruct (Edge.text accepted); injection Hserve as _ <-; discriminate Hstatus.
Qed.

Lemma welcome_success_means_accepted_witness :
  SendWelcomeEmail.serve (Some "re_key"%string) acceptingResend welcomePage welcomeRequest []
  = ([Edge.Fetch "Bearer re_key"
        {| Edge.from := Edge.sender;
           Edge.to := [Some "ann@vit.example"%string];
           Edge.subject := "✅ You're subscribed to Hackathon";
           Edge.html := "welcome" |}],
     Resolved {| SendWelcomeEmail.status := 200;
                 SendWelcomeEmail.content :=
                   SendWelcomeEmail.Success "Welcome email sent successfully" |})
  /\ exists emailData address name key response,
      SendWelcomeEmail.body welcomeRequest = Resolved emailData
      /\ SendWelcomeEmail.email emailData = Some address /\ address <> EmptyString
      /\ SendWelcomeEmail.eventName emailData = Some name /\ name <> EmptyString
      /\ Some "re_key"%string = Some key /\ key <> EmptyString
      /\ [Edge.Fetch "Bearer re_key"
            {| Edge.from := Edge.sender;
               Edge.to := [Some "ann@vit.example"%string];
               Edge.subject := "✅ You're subscribed to Hackathon";
               Edge.html := "welcome" |}]
         = [] ++ [Edge.Fetch ("Bearer " ++ key)
                    {| Edge.from := Edge.sender;
                       Edge.to := [Some address];
                       Edge.subject := ("✅ You're subscribed to " ++ name)%string;
                       Edge.html := welcomePage emailData |}]
      /\ acceptingResend [] ("Bearer " ++ key)%string
            {| Edge.from := Edge.sender;
               Edge.to := [Some address];
               Edge.subject := ("✅ You're subscribed to " ++ name)%string;
               Edge.html := welcomePage emailData |}
         = Resolved response
      /\ Edge.ok response = true
      /\ Edge.json response = Resolved tt.
Proof.
  split; [reflexivity|].
  apply (welcome_success_means_accepted
           (Some "re_key"%string) acceptingResend welcomePage welcomeRequest [] _
           {| SendWelcomeEmail.status := 200;
              SendWelcomeEmail.content :=
                SendWelcomeEmail.Success "Welcome email sent successfully" |});
    reflexivity.
Defined.

(** X17. A request other than [OPTIONS] that cannot be served, because
    the key of the mail provider is not set, or because its body cannot
    be read or lacks the e-mail or the name of the event, is answered
    with status 400, and nothing is posted to the provider. *)
Theorem welcome_incomplete_is_refused :
  forall RESEND_API_KEY resend generateWelcomeHTML req calls,
    String.eqb (SendWelcomeEmail.method req) "OPTIONS" = false ->
    truthy RESEND_API_KEY = None
    \/ (forall emailData,
           SendWelcomeEmail.body req = Resolved emailData ->
           truthy (SendWelcomeEmail.email emailData) = None
           \/ truthy (SendWelcomeEmail.eventName emailData) = None) ->
    exists message,
      SendWelcomeEmail.serve RESEND_API_KEY resend generateWelcomeHTML req calls
      = (calls, Resolved {| SendWelcomeEmail.status := 400;
                            SendWelcomeEmail.content := SendWelcomeEmail.Failure message |}).
Proof.
  intros RESEND_API_KEY resend generateWelcomeHTML req calls Hmethod Hmissing.
  unfold SendWelcomeEmail.serve. rewrite Hmethod.
  unfold Edge.tryCatch, Edge.bind, Edge.lift, Edge.ret, Edge.throw.
  destruct (SendWelcomeEmail.body req) as [emailData|reason] eqn:Hbody; [|eauto].
  destruct (truthy (SendWelcomeEmail.email emailData)) as [address|] eqn:Haddress; [|eauto].
  destruct (truthy (SendWelcomeEmail.eventName emailData)) as [name|] eqn:Hname; [|eauto].
  destruct Hmissing as [Hkey|Hfields].
  - unfold SendWelcomeEmail.sendWelcomeEmail. rewrite Hkey. unfold Edge.throw. eauto.
  - destruct (Hfields emailData eq_refl); congruence.
Qed.

Lemma welcome_incomplete_is_refused_witness :
  SendWelcomeEmail.serve (Some "re_key"%string) acceptingResend welcomePage anonymousRequest []
  = ([], Resolved {| SendWelcomeEmail.status := 400;
                     SendWelcomeEmail.content :=
                       SendWelcomeEmail.Failure
                         "Missing required fields: email and eventName" |})
  /\ exists message,
      SendWelcomeEmail.serve None acceptingResend welcomePage welcomeRequest []
      = ([], Resolved {| SendWelcomeEmail.status := 400;
                         SendWelcomeEmail.content := SendWelcomeEmail.Failure message |}).
Proof.
  split; [reflexivity|].
  apply (welcome_incomplete_is_refused None acceptingResend welcomePage welcomeRequest []).
  - reflexivity.
  - left. reflexivity.
Defined.

(** *** send-notifications *)

Section Reminders.

Variable RESEND_API_KEY : option string.
Variable resend : list Edge.Call -> string -> Edge.EmailPayload -> Promise Edge.FetchResponse.
Variable update : list Edge.Call -> string -> Promise unit.
Variable pending : Promise SendNotifications.NotificationsResponse.
Variable toLocaleDateString toLocaleTimeString toLocaleString : Date -> string.
Variable generateReminderHTML : string -> string -> string -> string -> string -> string.
Variable notIterable : string.

Let sendEmail := SendNotifications.sendEmail RESEND_API_KEY resend.
Let remind :=
  SendNotifications.remind RESEND_API_KEY resend update
    toLocaleDateString toLocaleTimeString toLocaleString generateReminderHTML.
Let forEach :=
  SendNotifications.forEach RESEND_API_KEY resend update
    toLocaleDateString toLocaleTimeString toLocaleString generateReminderHTML.

Lemma sendEmail_calls emailData calls :
  (exists message, sendEmail emailData calls = (calls, Rejected message))
  \/ exists authorization payload outcome,
      sendEmail emailData calls = (calls ++ [Edge.Fetch authorization payload], outcome).
Proof.
  unfold sendEmail, SendNotifications.sendEmail.
  destruct (truthy RESEND_API_KEY) as [key|]; [|left; unfold Edge.throw; eauto].
  right. unfold Edge.bind, Edge.lift, Edge.throw.
  destruct (resend calls _ _) as [response|reason]; [|eauto].
  destruct (Edge.ok response); [eauto|].
  destruct (Edge.text response); eauto.
Qed.

Lemma remind_turn notification calls :
  exists made outcome,
    remind notification calls = (calls ++ made, outcome) /\ SendNotifications.Turn made outcome.
Proof.
  unfold remind, SendNotifications.remind. unfold Edge.bind at 1.
  match goal with
  | |- context [SendNotifications.sendEmail _ _ ?e calls] =>
      destruct (sendEmail_calls e calls) as [[message Hsend]|(a & p & outcome & Hsend)]
  end; unfold sendEmail in Hsend; rewrite Hsend.
  - exists [], (Rejected message). rewrite app_nil_r. split; [reflexivity|constructor].
  - destruct outcome as [[]|message].
    + eexists _, _. rewrite <- app_assoc. split; [reflexivity|]. cbn [app]. constructor.
    + eexists _, _. split; [reflexivity|constructor].
Qed.

Lemma forEach_accounted notifications :
  forall emailsSent emailErrors calls,
  exists made emailsSent' emailErrors',
    forEach notifications emailsSent emailErrors calls
    = (calls ++ made, Resolved (emailsSent', emailErrors'))
    /\ (emailsSent' + length emailErrors'
        = emailsSent + length emailErrors + length notifications)%nat
    /\ (emailsSent' <= emailsSent + Edge.updateCalls made)%nat
    /\ (Edge.updateCalls made <= Edge.fetchCalls made)%nat
    /\ (Edge.fetchCalls made <= length notifications)%nat.
Proof.
  induction notifications as [|notification rest IH]; intros emailsSent emailErrors calls.
  - exists [], emailsSent, emailErrors. rewrite app_nil_r. cbn.
    repeat split; lia.
  - unfold forEach. cbn [SendNotifications.forEach].
    unfold Edge.bind at 1, Edge.tryCatch, Edge.bind at 1.
    destruct (remind_turn notification calls) as (made & outcome & Hturn & Hshape).
    unfold remind in Hturn. rewrite Hturn.
    destruct outcome as [[]|message].
    + unfold Edge.ret at 1. cbn [fst snd].
      destruct (IH (S emailsSent) emailErrors (calls ++ made))
        as (made' & sent' & errors' & Hrest & Hsum & Hsent & Hupdate & Hfetch).
      unfold forEach in Hrest. rewrite Hrest.
      exists (made ++ made'), sent', errors'. rewrite app_assoc.
      split; [reflexivity|].
      inversion Hshape; subst.
      unfold Edge.updateCalls, Edge.fetchCalls in *. cbn in *. repeat split; lia.
    + unfold Edge.ret at 1. cbn [fst snd].
      destruct (IH emailsSent
                   (push emailErrors
                         {| SendNotifications.notificationId :=
                              SendNotifications.id notification;
                            SendNotifications.failedEmail :=
                              SendNotifications.email notification;
                            SendNotifications.errorMessage := message |})
                   (calls ++ made))
        as (made' & sent' & errors' & Hrest & Hsum & Hsent & Hupdate & Hfetch).
      unfold forEach in Hrest. rewrite Hrest.
      exists (made ++ made'), sent', errors'. rewrite app_assoc.
      split; [reflexivity|].
      unfold push in Hsum. rewrite length_app in Hsum. cbn in Hsum.
      inversion Hshape; subst;
        unfold Edge.updateCalls, Edge.fetchCalls in *; cbn in *; repeat split; lia.
Qed.

(** X18. When the pending notifications were fetched, the handler
    answers with status 200 and accounts for each of them once, as sent
    or as an error; no more notifications are counted as sent than were
    marked in the store, no more marked than messages were posted to the
    provider, and no more messages posted than there are notifications. *)
Theorem reminders_accounted :
  forall method notifications calls,
    String.eqb method "OPTIONS" = false ->
    pending = Resolved {| SendNotifications.data := Some notifications;
                          SendNotifications.error := None |} ->
    exists made emailsSent errors,
      SendNotifications.serve RESEND_API_KEY resend update pending
        toLocaleDateString toLocaleTimeString toLocaleString generateReminderHTML
        notIterable method calls
      = (calls ++ made,
         Resolved {| SendNotifications.status := 200;
                     SendNotifications.content :=
                       SendNotifications.Report emailsSent (length notifications) errors |})
      /\ (emailsSent + length errors = length notifications)%nat
      /\ (emailsSent <= Edge.updateCalls made)%nat
      /\ (Edge.updateCalls made <= Edge.fetchCalls made)%nat
      /\ (Edge.fetchCalls made <= length notifications)%nat.
Proof.
  intros method notifications calls Hmethod Hpending.
  unfold SendNotifications.serve. rewrite Hmethod, Hpending.
  unfold Edge.tryCatch, Edge.bind at 1, Edge.lift.
  cbn [SendNotifications.error SendNotifications.data].
  unfold Edge.bind.
  destruct (forEach_accounted notifications 0%nat [] calls)
    as (made & sent & errors & Hloop & Hsum & Hsent & Hupdate & Hfetch).
  unfold forEach in Hloop. rewrite Hloop. unfold Edge.ret. cbn [fst snd].
  exists made, sent, errors. cbn in Hsum. repeat split; try assumption; lia.
Qed.

Lemma forEach_without_key notifications :
  truthy RESEND_API_KEY = None ->
  forall emailsSent emailErrors calls,
    forEach notifications emailsSent emailErrors calls
    = (calls, Resolved (emailsSent, emailErrors ++ map SendNotifications.missingKey notifications)).
Proof.
  intros Hkey. induction notifications as [|notification rest IH];
    intros emailsSent emailErrors calls.
  - cbn. now rewrite app_nil_r.
  - unfold forEach. cbn [SendNotifications.forEach].
    unfold Edge.bind at 1, Edge.tryCatch, Edge.bind at 1.
    unfold SendNotifications.remind, Edge.bind at 1, SendNotifications.sendEmail.
    rewrite Hkey. unfold Edge.throw, Edge.ret. cbn [fst snd].
    unfold forEach in IH. rewrite IH. unfold push. now rewrite <- app_assoc.
Qed.

(** X19. When the key of the mail provider is not set, the handler
    still answers with status 200: it posts nothing, marks nothing,
    counts nothing as sent and reports one error for each pending
    notification. *)
Theorem reminders_without_key :
  forall method notifications calls,
    String.eqb method "OPTIONS" = false ->
    truthy RESEND_API_KEY = None ->
    pending = Resolved {| SendNotifications.data := Some notifications;
                          SendNotifications.error := None |} ->
    SendNotifications.serve RESEND_API_KEY resend update pending
      toLocaleDateString toLocaleTimeString toLocaleString generateReminderHTML
      notIterable method calls
    = (calls,
       Resolved {| SendNotifications.status := 200;
                   SendNotifications.content :=
                     SendNotifications.Report 0 (length notifications)
                                              (map SendNotifications.missingKey notifications) |}).
Proof.
  intros method notifications calls Hmethod Hkey Hpending.
  unfold SendNotifications.serve. rewrite Hmethod, Hpending.
  unfold Edge.tryCatch, Edge.bind at 1, Edge.lift.
  cbn [SendNotifications.error SendNotifications.data].
  unfold Edge.bind.
  pose proof (forEach_without_key notifications Hkey 0%nat [] calls) as Hloop.
  unfold forEach in Hloop. rewrite Hloop. reflexivity.
Qed.

End Reminders.

Lemma reminders_accounted_witness :
  SendNotifications.serve (Some "re_key"%string) tiringResend resolvingUpdate twoPending
    plainText plainText plainText plainPage "not iterable" "POST" []
  = ([Edge.Fetch "Bearer re_key"
        {| Edge.from := Edge.sender;
           Edge.to := [Some "ann@vit.example"%string];
           Edge.subject := "⏰ Registration ends soon: Hackathon";
           Edge.html := "Hackathon" |};
      Edge.Update "n1";
      Edge.Fetch "Bearer re_key"
        {| Edge.from := Edge.sender;
           Edge.to := [Some "raj@vit.example"%string];
           Edge.subject := "⏰ Registration ends soon: Hackathon";
           Edge.html := "Hackathon" |}],
     Resolved {| SendNotifications.status := 200;
                 SendNotifications.content :=
                   SendNotifications.Report 1 2
                     [{| SendNotifications.notificationId := "n2";
                         SendNotifications.failedEmail := "raj@vit.example";
                         SendNotifications.errorMessage :=
                           "Failed to send email: rate limited" |}] |})
  /\ exists made emailsSent errors,
      SendNotifications.serve (Some "re_key"%string) tiringResend resolvingUpdate twoPending
        plainText plainText plainText plainPage "not iterable" "POST" []
      = ([] ++ made,
         Resolved {| SendNotifications.status := 200;
                     SendNotifications.content :=
                       SendNotifications.Report emailsSent 2 errors |})
      /\ (emailsSent + length errors = 2)%nat
      /\ (emailsSent <= Edge.updateCalls made)%nat
      /\ (Edge.updateCalls made <= Edge.fetchCalls made)%nat
      /\ (Edge.fetchCalls made <= 2)%nat.
Proof.
  split; [reflexivity|].
  exact (reminders_accounted
           (Some "re_key"%string) tiringResend resolvingUpdate twoPending
           plainText plainText plainText plainPage "not iterable" "POST"
           [subscription "n1" "ann@vit.example"; subscription "n2" "raj@vit.example"] []
           eq_refl eq_refl).
Defined.

Lemma reminders_without_key_witness :
  SendNotifications.serve None acceptingResend resolvingUpdate twoPending
    plainText plainText plainText plainPage "not iterable" "POST" []
  = ([], Resolved {| SendNotifications.status := 200;
                     SendNotifications.content :=
                       SendNotifications.Report 0 2
                         (map SendNotifications.missingKey
                              [subscription "n1" "ann@vit.example";
                               subscription "n2" "raj@vit.example"]) |}).
Proof.
  exact (reminders_without_key
           None acceptingResend resolvingUpdate twoPending
           plainText plainText plainText plainPage "not iterable" "POST"
           [subscription "n1" "ann@vit.example"; subscription "n2" "raj@vit.example"] []
           eq_refl eq_refl eq_refl).
Defined.

(** ** The reminders of the client *)

Lemma EmailService_nth_middle (before : list SendNotifications.Notification)
      notification rest :
  nth_error (before ++ notification :: rest) (length before) = Some notification.
Proof. induction before as [|x before IH]; simpl; [reflexivity|exact IH]. Qed.

Lemma EmailService_callsBefore_middle calls
      (before : list SendNotifications.Notification) notification rest :
  EmailService.callsBefore calls (before ++ notification :: rest) (length before)
  = calls ++ map (fun n => Edge.Update (SendNotifications.id n)) before.
Proof.
  unfold EmailService.callsBefore. f_equal. f_equal.
  induction before as [|x before IH]; simpl; [reflexivity|now rewrite IH].
Qed.

Lemma EmailService_forEach_counts update calls rest :
  forall before sent errors,
    EmailService.forEach update rest sent errors
      (calls ++ map (fun n => Edge.Update (SendNotifications.id n)) before)
    = (calls ++ map (fun n => Edge.Update (SendNotifications.id n)) (before ++ rest),
       Resolved
         {| EmailService.sent :=
              sent + length (filter (EmailService.updateResolves update calls (before ++ rest))
                                    (seq (length before) (length rest)));
            EmailService.errors :=
              errors + length (filter (EmailService.updateRejects update calls (before ++ rest))
                                      (seq (length before) (length rest))) |}).
Proof.
  induction rest as [|notification rest IH]; intros before sent errors.
  - cbn. rewrite app_nil_r, !Nat.add_0_r. reflexivity.
  - cbn [EmailService.forEach length seq filter].
    unfold EmailService.updateResolves at 1, EmailService.updateRejects at 1.
    rewrite EmailService_nth_middle, EmailService_callsBefore_middle.
    unfold Edge.bind at 1, Edge.tryCatch, Edge.bind at 1.
    assert (Hcalls :
              (calls ++ map (fun n => Edge.Update (SendNotifications.id n)) before)
                ++ [Edge.Update (SendNotifications.id notification)]
              = calls ++ map (fun n => Edge.Update (SendNotifications.id n))
                             (before ++ [notification])).
    { rewrite map_app, app_assoc. reflexivity. }
    assert (Hall : (before ++ [notification]) ++ rest = before ++ notification :: rest).
    { rewrite <- app_assoc. reflexivity. }
    assert (Hlength : length (before ++ [notification]) = S (length before)).
    { rewrite length_app. simpl. lia. }
    destruct (update (calls ++ map (fun n => Edge.Update (SendNotifications.id n)) before)
                     (SendNotifications.id notification)) as [[]|reason];
      unfold Edge.ret at 1; cbn [fst snd];
      rewrite Hcalls, IH, Hall, Hlength; cbn [length];
      rewrite ?Nat.add_succ_r; reflexivity.
Qed.

Lemma EmailService_updates_split update calls notifications (indices : list nat) :
  Forall (fun index => (index < length notifications)%nat) indices ->
  (length (filter (EmailService.updateResolves update calls notifications) indices)
   + length (filter (EmailService.updateRejects update calls notifications) indices)
   = length indices)%nat.
Proof.
  induction 1 as [|index indices Hindex _ IH]; [reflexivity|].
  cbn [filter]. unfold EmailService.updateResolves at 1, EmailService.updateRejects at 1.
  destruct (nth_error notifications index) as [notification|] eqn:Hnth.
  - destruct (update _ _); cbn [length]; lia.
  - apply nth_error_None in Hnth. lia.
Qed.

(** X20. When the pending notifications were fetched,
    [checkAndSendReminders] asks the store to mark each of them, once
    and in order, and makes no other call: no message is posted to a
    mail provider.  It resolves with the number of notifications whose
    update the store resolved as [sent] and the number of those whose
    update it rejected as [errors]; the two add up to the number of
    notifications. *)
Theorem checkAndSendReminders_marks_every_notification :
  forall pending update notifications calls,
    pending = Resolved {| SendNotifications.data := Some notifications;
                          SendNotifications.error := None |} ->
    EmailService.checkAndSendReminders pending update calls
    = (calls ++ map (fun n => Edge.Update (SendNotifications.id n)) notifications,
       Resolved
         {| EmailService.sent := EmailService.resolvedUpdates update calls notifications;
            EmailService.errors := EmailService.rejectedUpdates update calls notifications |})
    /\ (EmailService.resolvedUpdates update calls notifications
        + EmailService.rejectedUpdates update calls notifications
        = length notifications)%nat.
Proof.
  intros pending update notifications calls ->.
  split.
  2:{ unfold EmailService.resolvedUpdates, EmailService.rejectedUpdates.
      rewrite EmailService_updates_split; [apply length_seq|].
      apply Forall_forall. intros index Hin. apply in_seq in Hin. lia. }
  unfold EmailService.checkAndSendReminders.
  unfold Edge.tryCatch, Edge.bind at 1, Edge.lift.
  cbn [SendNotifications.error SendNotifications.data].
  destruct notifications as [|notification rest].
  - cbn. rewrite app_nil_r. reflexivity.
  - cbn [length Nat.eqb].
    pose proof (EmailService_forEach_counts update calls (notification :: rest) [] 0 0)
      as Hloop.
    cbn [map app] in Hloop. rewrite app_nil_r in Hloop. rewrite Hloop.
    reflexivity.
Qed.

Lemma checkAndSendReminders_marks_every_notification_witness :
  EmailService.checkAndSendReminders twoPending flakyUpdate []
  = ([] ++ map (fun n => Edge.Update (SendNotifications.id n))
               [subscription "n1" "ann@vit.example"; subscription "n2" "raj@vit.example"],
     Resolved
       {| EmailService.sent :=
            EmailService.resolvedUpdates flakyUpdate []
              [subscription "n1" "ann@vit.example"; subscription "n2" "raj@vit.example"];
          EmailService.errors :=
            EmailService.rejectedUpdates flakyUpdate []
              [subscription "n1" "ann@vit.example"; subscription "n2" "raj@vit.example"] |})
  /\ (EmailService.resolvedUpdates flakyUpdate []
        [subscription "n1" "ann@vit.example"; subscription "n2" "raj@vit.example"]
      + EmailService.rejectedUpdates flakyUpdate []
          [subscription "n1" "ann@vit.example"; subscription "n2" "raj@vit.example"]
      = 2)%nat.
Proof.
  exact (checkAndSendReminders_marks_every_notification
           twoPending flakyUpdate
           [subscription "n1" "ann@vit.example"; subscription "n2" "raj@vit.example"] []
           eq_refl).
Defined.

(** The store rejects the update of [n2]: one reminder counts as sent,
    one as an error, and both updates were asked for. *)
Example scenario_reminders_one_rejected :
  EmailService.checkAndSendReminders twoPending flakyUpdate []
  = ([Edge.Update "n1"; Edge.Update "n2"],
     Resolved {| EmailService.sent := 1; EmailService.errors := 1 |})
  /\ EmailService.resolvedUpdates flakyUpdate []
       [subscription "n1" "ann@vit.example"; subscription "n2" "raj@vit.example"] = 1%nat
  /\ EmailService.rejectedUpdates flakyUpdate []
       [subscription "n1" "ann@vit.example"; subscription "n2" "raj@vit.example"] = 1%nat.
Proof. repeat split; reflexivity. Qed.

Example scenario_reminders_marked :
  EmailService.checkAndSendReminders twoPending resolvingUpdate []
  = ([Edge.Update "n1"; Edge.Update "n2"],
     Resolved {| EmailService.sent := 2; EmailService.errors := 0 |}).
Proof. reflexivity. Qed.
